(** * nexrad_utils: locating NEXRAD Level-II volumes and building composites

    A shallow embedding of [nexrad_utils.py].  Python values are modelled
    by the Rocq data they denote, exceptions by an explicit [result] type,
    and the external collaborators (the object store, the radar decoding
    library) by interfaces whose implementations are arguments of the
    functions that use them. *)

From Stdlib Require Import String Ascii List ZArith QArith Qabs Bool Lia Lqa.
From Stdlib Require Import DecimalString.
Import ListNotations.

Local Open Scope string_scope.
Local Open Scope list_scope.

(** ** Exceptions

    A Python call either returns a value or raises.  Only the exception
    classes the module can meet are distinguished. *)

Inductive exn : Type :=
| IndexError
| ValueError
| KeyError
| OSError
| LibraryError (msg : string).

Inductive result (A : Type) : Type :=
| Ok (a : A)
| Raise (e : exn).

Arguments Ok {A} a.
Arguments Raise {A} e.

Definition bind {A B : Type} (m : result A) (k : A -> result B) : result B :=
  match m with
  | Ok a => k a
  | Raise e => Raise e
  end.

Notation "x <- m ;; k" := (bind m (fun x => k))
  (at level 61, m at next level, right associativity).
Notation "' p <- m ;; k" := (bind m (fun p => k))
  (at level 61, p pattern, m at next level, right associativity).

Definition raises {A : Type} (m : result A) : Prop :=
  exists e, m = Raise e.

Definition returns {A : Type} (m : result A) : Prop :=
  exists a, m = Ok a.

(** ** Floating-point cells

    An array cell is a double.  The module only compares cells with each
    other and with the constants [1000.] and [-1000.], so a cell is
    modelled by the extended rational it denotes: a finite value, one of
    the two infinities, or NaN (numpy's "missing"). *)

Inductive float : Type :=
| NaN
| NInf
| Fin (q : Q)
| PInf.

Definition Qltb (p q : Q) : bool :=
  match Qcompare p q with
  | Lt => true
  | _ => false
  end.

(** [a < b] on doubles: every comparison with NaN is false. *)
Definition fltb (a b : float) : bool :=
  match a, b with
  | NaN, _ | _, NaN => false
  | NInf, NInf => false
  | NInf, _ => true
  | Fin _, NInf => false
  | Fin p, Fin q => Qltb p q
  | Fin _, PInf => true
  | PInf, _ => false
  end.

Definition fgtb (a b : float) : bool := fltb b a.

(** [np.fmax]: the larger operand, a NaN operand being ignored. *)
Definition fmax (a b : float) : float :=
  match a, b with
  | NaN, _ => b
  | _, NaN => a
  | _, _ => if fltb a b then b else a
  end.

(** A two-dimensional array is the list of its rows (axis 0), each row
    the list of its cells (axis 1). *)
Definition ndarray : Type := list (list float).

Definition rectangular (n : nat) (a : ndarray) : Prop :=
  Forall (fun row => length row = n) a.

Fixpoint map2 {A : Type} (f : A -> A -> A) (l1 l2 : list A) : list A :=
  match l1, l2 with
  | a :: l1', b :: l2' => f a b :: map2 f l1' l2'
  | _, _ => []
  end.

(** [np.nanmax(a, axis=0)]: [np.fmax.reduce] along the rows; a reduction
    over zero rows has no identity and raises [ValueError]. *)
Definition nanmax_axis0 (a : ndarray) : result (list float) :=
  match a with
  | [] => Raise ValueError
  | row :: rows => Ok (fold_left (map2 fmax) rows row)
  end.

(** ** The radar display

    [pyart.graph.RadarDisplay(radar)] is opaque: the module uses its
    method [_get_azimuth_rhi_data_x_y_z] and its attribute [ranges]. *)

Record RadarDisplay : Type := {
  _get_azimuth_rhi_data_x_y_z :
    string -> Q -> bool -> option unit -> bool -> option unit ->
    result (ndarray * ndarray * ndarray * ndarray);
  ranges : list Q
}.

(** [ray[np.logical_or(ray > 1000., ray < -1000.)] = np.nan] *)
Definition mask_saturated (v : float) : float :=
  if fgtb v (Fin 1000%Q) || fltb v (Fin (-1000)%Q) then NaN else v.

Section Composite.

(** The radar volume and [pyart.graph.RadarDisplay]. *)
Variable Radar : Type.
Variable pyart_graph_RadarDisplay : Radar -> RadarDisplay.

Definition get_composite_field (radar : Radar) (field : string) (azimuth : Q)
  : result (list float * list Q) :=
  let d := pyart_graph_RadarDisplay radar in
  '(ray, x, y, z) <-
    _get_azimuth_rhi_data_x_y_z d "reflectivity" azimuth true None true None ;;
  let ray := map (map mask_saturated) ray in
  raycomp <- nanmax_axis0 ray ;;
  Ok (raycomp, ranges d).

End Composite.

(** ** Strings: [str.format], [os.path] *)

(** A Python value handed to a ["{}"] replacement field: the docstrings
    announce strings, and integers format to their decimal digits. *)
Inductive pyval : Type :=
| PStr (s : string)
| PInt (z : Z).

Definition str_of_Z (z : Z) : string := NilZero.string_of_int (Z.to_int z).

Definition py_str (v : pyval) : string :=
  match v with
  | PStr s => s
  | PInt z => str_of_Z z
  end.

Definition is_slash (c : ascii) : bool := Ascii.eqb c "/".

(** [(p[:i], p[i:])] with [i = p.rfind('/') + 1], when [p] has a slash. *)
Fixpoint rsplit_slash (p : string) : option (string * string) :=
  match p with
  | EmptyString => None
  | String c p' =>
      match rsplit_slash p' with
      | Some (h, t) => Some (String c h, t)
      | None => if is_slash c then Some (String c EmptyString, p') else None
      end
  end.

Fixpoint all_slashes (s : string) : bool :=
  match s with
  | EmptyString => true
  | String c s' => is_slash c && all_slashes s'
  end.

(** [head.rstrip('/')] *)
Fixpoint rstrip_slashes (s : string) : string :=
  match s with
  | EmptyString => EmptyString
  | String c s' => if all_slashes s then EmptyString else String c (rstrip_slashes s')
  end.

(** [posixpath.split] *)
Definition os_path_split (p : string) : string * string :=
  match rsplit_slash p with
  | Some (head, tail) =>
      (if all_slashes head then head else rstrip_slashes head, tail)
  | None => (EmptyString, p)
  end.

(** [posixpath.basename] *)
Definition os_path_basename (p : string) : string :=
  match rsplit_slash p with
  | Some (_, tail) => tail
  | None => p
  end.

(** ** Timestamps

    A [pd.Timestamp] is NaT or a point of the proleptic Gregorian calendar,
    kept as its broken-down fields at one-second resolution. *)

Record datetime : Type := {
  year : Z; month : Z; day : Z; hour : Z; minute : Z; second : Z
}.

Inductive Timestamp : Type :=
| NaT
| At (t : datetime).

Definition is_leap (y : Z) : bool :=
  ((y mod 4 =? 0) && negb (y mod 100 =? 0) || (y mod 400 =? 0))%Z.

Definition days_in_month (y m : Z) : Z :=
  (if m =? 2 then (if is_leap y then 29 else 28)
   else if (m =? 4) || (m =? 6) || (m =? 9) || (m =? 11) then 30
   else 31)%Z.

(** Days from 1970-01-01 to the civil date [y-m-d]. *)
Definition days_from_civil (y m d : Z) : Z :=
  (let y := if m <=? 2 then y - 1 else y in
   let era := y / 400 in
   let yoe := y - era * 400 in
   let mp := if 2 <? m then m - 3 else m + 9 in
   let doy := (153 * mp + 2) / 5 + d - 1 in
   let doe := yoe * 365 + yoe / 4 - yoe / 100 + doy in
   era * 146097 + doe - 719468)%Z.

(** The civil date of the day [z] days after 1970-01-01. *)
Definition civil_from_days (z : Z) : Z * Z * Z :=
  (let z := z + 719468 in
   let era := z / 146097 in
   let doe := z - era * 146097 in
   let yoe := (doe - doe / 1460 + doe / 36524 - doe / 146096) / 365 in
   let doy := doe - (365 * yoe + yoe / 4 - yoe / 100) in
   let mp := (5 * doy + 2) / 153 in
   let d := doy - (153 * mp + 2) / 5 + 1 in
   let m := if mp <? 10 then mp + 3 else mp - 9 in
   let y := yoe + era * 400 in
   (if m <=? 2 then y + 1 else y, m, d))%Z.

(** Seconds since the epoch, and back. *)
Definition to_seconds (t : datetime) : Z :=
  (days_from_civil (year t) (month t) (day t) * 86400
   + hour t * 3600 + minute t * 60 + second t)%Z.

Definition of_seconds (s : Z) : datetime :=
  (let days := s / 86400 in
   let rem := s mod 86400 in
   let '(y, m, d) := civil_from_days days in
   {| year := y; month := m; day := d;
      hour := rem / 3600; minute := (rem mod 3600) / 60; second := rem mod 60 |})%Z.

Definition one_hour : Z := 3600%Z.

(** [pd.date_range(start, end, freq='H')]: [start], [start + 1h], ... up
    to and including the last one not after [end]; NaT bounds are
    refused. *)
Definition pd_date_range (start end_ : Timestamp) : result (list datetime) :=
  match start, end_ with
  | At s, At e =>
      let b := to_seconds s in
      let n := ((to_seconds e - b) / one_hour + 1)%Z in
      Ok (map (fun k => of_seconds (b + Z.of_nat k * one_hour)%Z)
              (seq 0 (Z.to_nat n)))
  | _, _ => Raise ValueError
  end.

(** *** [strftime] *)

Definition pad2 (z : Z) : string :=
  (if (0 <=? z) && (z <? 10) then "0" ++ str_of_Z z else str_of_Z z)%Z%string.

(** The conversions the module's templates use; any other character
    after [%] is copied with its [%]. *)
Definition strftime_directive (t : datetime) (c : ascii) : string :=
  if Ascii.eqb c "Y" then str_of_Z (year t)
  else if Ascii.eqb c "m" then pad2 (month t)
  else if Ascii.eqb c "d" then pad2 (day t)
  else if Ascii.eqb c "H" then pad2 (hour t)
  else if Ascii.eqb c "M" then pad2 (minute t)
  else if Ascii.eqb c "S" then pad2 (second t)
  else if Ascii.eqb c "%" then "%"
  else String "%" (String c EmptyString).

Fixpoint strftime_fields (t : datetime) (fmt : string) : string :=
  match fmt with
  | EmptyString => EmptyString
  | String c rest =>
      if Ascii.eqb c "%" then
        match rest with
        | EmptyString => "%"
        | String c' rest' => strftime_directive t c' ++ strftime_fields t rest'
        end
      else String c (strftime_fields t rest)
  end.

(** [Timestamp.strftime] on a member of a date range. *)
Definition strftime (t : datetime) (fmt : string) : string :=
  strftime_fields t fmt.

(** *** [pd.to_datetime(text, format=fmt)]

    The format is compiled to a regular expression, one group per
    directive, which is matched case-insensitively against the start of
    the text; the whole text must be consumed.  The model covers the six
    numeric directives of the module's templates and literal characters;
    another directive is refused as a bad directive. *)

Inductive directive : Type := DY | Dm | Dd | DH | DM | DS.

Inductive token : Type :=
| TLit (c : ascii)
| TDir (d : directive).

Definition directive_of (c : ascii) : option directive :=
  if Ascii.eqb c "Y" then Some DY
  else if Ascii.eqb c "m" then Some Dm
  else if Ascii.eqb c "d" then Some Dd
  else if Ascii.eqb c "H" then Some DH
  else if Ascii.eqb c "M" then Some DM
  else if Ascii.eqb c "S" then Some DS
  else None.

Fixpoint tokenize (fmt : string) : result (list token) :=
  match fmt with
  | EmptyString => Ok []
  | String c rest =>
      if Ascii.eqb c "%" then
        match rest with
        | EmptyString => Raise ValueError
        | String c' rest' =>
            if Ascii.eqb c' "%" then
              ts <- tokenize rest' ;; Ok (TLit "%" :: ts)
            else
              match directive_of c' with
              | Some d => ts <- tokenize rest' ;; Ok (TDir d :: ts)
              | None => Raise ValueError
              end
        end
      else ts <- tokenize rest ;; Ok (TLit c :: ts)
  end.

Definition digit_of (c : ascii) : option Z :=
  let n := nat_of_ascii c in
  if (48 <=? n)%nat && (n <=? 57)%nat then Some (Z.of_nat (n - 48)) else None.

Definition lower (c : ascii) : ascii :=
  let n := nat_of_ascii c in
  if (65 <=? n)%nat && (n <=? 90)%nat then ascii_of_nat (n + 32) else c.

(** A candidate reading of a directive: its value and the text left. *)
Definition reading : Type := (Z * string)%type.

(** One alternative [\d\d] of a group, kept when [ok] accepts the digits. *)
Definition alt2 (ok : Z -> Z -> bool) (s : string) : list reading :=
  match s with
  | String c1 (String c2 rest) =>
      match digit_of c1, digit_of c2 with
      | Some a, Some b => if ok a b then [((10 * a + b)%Z, rest)] else []
      | _, _ => []
      end
  | _ => []
  end.

(** One alternative [\d]. *)
Definition alt1 (ok : Z -> bool) (s : string) : list reading :=
  match s with
  | String c1 rest =>
      match digit_of c1 with
      | Some a => if ok a then [(a, rest)] else []
      | None => []
      end
  | _ => []
  end.

(** The alternative [ [1-9]] of [%d]: a blank, then a digit. *)
Definition alt_blank (s : string) : list reading :=
  match s with
  | String c rest => if Ascii.eqb c " " then alt1 (fun a => 1 <=? a)%Z rest else []
  | _ => []
  end.

Definition alt4 (s : string) : list reading :=
  match s with
  | String c1 (String c2 (String c3 (String c4 rest))) =>
      match digit_of c1, digit_of c2, digit_of c3, digit_of c4 with
      | Some a, Some b, Some c, Some d =>
          [((1000 * a + 100 * b + 10 * c + d)%Z, rest)]
      | _, _, _, _ => []
      end
  | _ => []
  end.

(** The alternatives of each group, in the order the expression tries
    them. *)
Definition readings (d : directive) (s : string) : list reading :=
  (match d with
   | DY => alt4 s
   | Dm => alt2 (fun a b => (a =? 1) && (b <=? 2)) s
           ++ alt2 (fun a b => (a =? 0) && (1 <=? b)) s
           ++ alt1 (fun a => 1 <=? a) s
   | Dd => alt2 (fun a b => (a =? 3) && (b <=? 1)) s
           ++ alt2 (fun a _ => (1 <=? a) && (a <=? 2)) s
           ++ alt2 (fun a b => (a =? 0) && (1 <=? b)) s
           ++ alt1 (fun a => 1 <=? a) s
           ++ alt_blank s
   | DH => alt2 (fun a b => (a =? 2) && (b <=? 3)) s
           ++ alt2 (fun a _ => a <=? 1) s
           ++ alt1 (fun _ => true) s
   | DM => alt2 (fun a _ => a <=? 5) s
           ++ alt1 (fun _ => true) s
   | DS => alt2 (fun a b => (a =? 6) && (b <=? 1)) s
           ++ alt2 (fun a _ => a <=? 5) s
           ++ alt1 (fun _ => true) s
   end)%Z.

Definition set_field (d : directive) (v : Z) (t : datetime) : datetime :=
  match d with
  | DY => {| year := v; month := month t; day := day t;
             hour := hour t; minute := minute t; second := second t |}
  | Dm => {| year := year t; month := v; day := day t;
             hour := hour t; minute := minute t; second := second t |}
  | Dd => {| year := year t; month := month t; day := v;
             hour := hour t; minute := minute t; second := second t |}
  | DH => {| year := year t; month := month t; day := day t;
             hour := v; minute := minute t; second := second t |}
  | DM => {| year := year t; month := month t; day := day t;
             hour := hour t; minute := v; second := second t |}
  | DS => {| year := year t; month := month t; day := day t;
             hour := hour t; minute := minute t; second := v |}
  end.

Fixpoint first_some {A B : Type} (f : A -> option B) (l : list A) : option B :=
  match l with
  | [] => None
  | a :: l' =>
      match f a with
      | Some b => Some b
      | None => first_some f l'
      end
  end.

(** The first match of the compiled format at the start of [s], by
    backtracking over the alternatives in their order. *)
Fixpoint match_tokens (ts : list token) (s : string) (acc : datetime)
  : option (datetime * string) :=
  match ts with
  | [] => Some (acc, s)
  | TLit c :: ts' =>
      match s with
      | String c' s' =>
          if Ascii.eqb (lower c) (lower c') then match_tokens ts' s' acc else None
      | EmptyString => None
      end
  | TDir d :: ts' =>
      first_some (fun r : reading => match_tokens ts' (snd r) (set_field d (fst r) acc))
                 (readings d s)
  end.

(** The fields of a directive the format does not mention. *)
Definition strptime_defaults : datetime :=
  {| year := 1900; month := 1; day := 1; hour := 0; minute := 0; second := 0 |}.

(** The texts pandas reads as a missing value. *)
Definition is_nat_string (s : string) : bool :=
  existsb (String.eqb s) [""; "NaT"; "nat"; "NAT"; "nan"; "NaN"; "NAN"].

Definition pd_to_datetime (text fmt : string) : result Timestamp :=
  if is_nat_string text then Ok NaT
  else
    ts <- tokenize fmt ;;
    match match_tokens ts text strptime_defaults with
    | None => Raise ValueError
    | Some (t, rest) =>
        if negb (String.eqb rest "") then Raise ValueError
        else if ((1 <=? year t) && (day t <=? days_in_month (year t) (month t)))%Z
        then Ok (At t)
        else Raise ValueError
    end.

(** ** The result table

    [xr.Dataset] with the coordinates [time] and [range] and the variable
    [ref] over [('time', 'range')]. *)

Record Dataset : Type := {
  ds_time : list Timestamp;
  ds_range : list Q;
  ds_ref : ndarray
}.

(** [np.vstack]: at least one row, and rows of one length. *)
Definition np_vstack (rays : list (list float)) : result ndarray :=
  match rays with
  | [] => Raise ValueError
  | r :: rs =>
      if forallb (fun r' => length r' =? length r)%nat rs then Ok rays
      else Raise ValueError
  end.

(** [ranges[0]] *)
Definition first_item {A : Type} (l : list A) : result A :=
  match l with
  | [] => Raise IndexError
  | a :: _ => Ok a
  end.

(** The three assignments [ds['time']], [ds['range']], [ds['ref']]; the
    last one is refused when the array does not have the shape of its
    dimensions. *)
Definition make_dataset (times : list Timestamp) (rays : list (list float))
  (rngs : list (list Q)) : result Dataset :=
  rng <- first_item rngs ;;
  ref <- np_vstack rays ;;
  if (length ref =? length times)%nat
     && forallb (fun row => length row =? length rng)%nat ref
  then Ok {| ds_time := times; ds_range := rng; ds_ref := ref |}
  else Raise ValueError.

Definition NEX_FMT_format (radar_id : string) : string :=
  (radar_id ++ "%Y%m%d_%H%M%S_V06")%string.

(** A Python [for] loop whose body may raise. *)
Fixpoint for_each {A S : Type} (body : S -> A -> result S) (l : list A) (s : S)
  : result S :=
  match l with
  | [] => Ok s
  | a :: l' => s' <- body s a ;; for_each body l' s'
  end.

(** ** Files and stores

    A stored object is its payload and whether it is held
    gzip-compressed. *)

Record file : Type := {
  gzipped : bool;
  payload : string
}.

(** The local filesystem: what each path holds. *)
Definition filesystem : Type := string -> option file.

(** The object store behind [s3fs.S3FileSystem(anon=True)]: the listing a
    glob pattern selects and the object a key opens.  A connection
    carries the glob patterns it has sent, oldest first. *)
Record S3Backend : Type := {
  s3_listing : string -> list string;
  s3_object : string -> result file
}.

Record S3FileSystem : Type := {
  s3_backend : S3Backend;
  s3_queries : list string
}.

Definition S3FileSystem_anon (b : S3Backend) : S3FileSystem :=
  {| s3_backend := b; s3_queries := [] |}.

(** [s3conn.glob(pattern)] *)
Definition s3_glob (conn : S3FileSystem) (pattern : string)
  : list string * S3FileSystem :=
  (s3_listing (s3_backend conn) pattern,
   {| s3_backend := s3_backend conn;
      s3_queries := s3_queries conn ++ [pattern] |}).

(** [s3conn.open(key, 'rb')] *)
Definition s3_open (conn : S3FileSystem) (key : string) : result file :=
  s3_object (s3_backend conn) key.

(** *** A store given by its keys

    The glob of a store that holds the objects [objs]: [*] stands for any
    run of characters other than [/], [?] for one such character, every
    other character for itself. *)

Fixpoint glob_match (pat : string) (s : string) {struct pat} : bool :=
  match pat with
  | EmptyString =>
      match s with
      | EmptyString => true
      | _ => false
      end
  | String p pat' =>
      if Ascii.eqb p "*" then
        (fix star (s : string) : bool :=
           glob_match pat' s
           || match s with
              | String c s' => negb (is_slash c) && star s'
              | EmptyString => false
              end) s
      else
        match s with
        | String c s' =>
            (if Ascii.eqb p "?" then negb (is_slash c) else Ascii.eqb p c)
            && glob_match pat' s'
        | EmptyString => false
        end
  end.

Fixpoint lookup_object (objs : list (string * file)) (key : string) : result file :=
  match objs with
  | [] => Raise OSError
  | (k, f) :: objs' => if String.eqb k key then Ok f else lookup_object objs' key
  end.

Definition backend_of_objects (objs : list (string * file)) : S3Backend :=
  {| s3_listing := fun pat => filter (glob_match pat) (map fst objs);
     s3_object := lookup_object objs |}.

(** ** Locator *)

Definition S3_FMT_format (a b : string) : string :=
  ("noaa-nexrad-level2/%Y/%m/%d/" ++ a ++ "/" ++ b ++ "%Y%m%d_%H")%string.

(** [get_s3_list_by_str]; the default of [bucket] is
    ['noaa-nexrad-level2'].  Besides the pair the function returns, the
    connection it made is given back, for the queries it has sent. *)
Definition get_s3_list_by_str (backend : S3Backend)
  (year month day : pyval) (hhmm : option pyval) (radar_id bucket : pyval)
  : (list string * string) * S3FileSystem :=
  let bucket_query :=
    (py_str bucket ++ "/" ++ py_str year ++ "/" ++ py_str month ++ "/"
     ++ py_str day ++ "/" ++ py_str radar_id ++ "/" ++ py_str radar_id
     ++ py_str year ++ py_str month ++ py_str day)%string in
  let bucket_query :=
    match hhmm with
    | Some v => (bucket_query ++ ("_" ++ py_str v))%string
    | None => bucket_query
    end in
  let s3conn := S3FileSystem_anon backend in
  let '(key_list, s3conn) := s3_glob s3conn (bucket_query ++ "*")%string in
  ((key_list, bucket_query), s3conn).


(** The body of the loop of [get_s3_list]. *)
Definition get_s3_list_body (bucket_query : string)
  (st : list string * S3FileSystem) (timeh : datetime)
  : list string * S3FileSystem :=
  let '(key_list, s3conn) := st in
  let '(found, s3conn) := s3_glob s3conn (strftime timeh bucket_query ++ "*")%string in
  (key_list ++ found, s3conn).

(** [get_s3_list]; the argument [bucket] is not used by the code. *)
Definition get_s3_list (backend : S3Backend) (start end_ : Timestamp)
  (radar_id bucket : string) : result (list string * S3FileSystem) :=
  let key_list := [] in
  let bucket_query := S3_FMT_format radar_id radar_id in
  dt_range <- pd_date_range start end_ ;;
  let s3conn := S3FileSystem_anon backend in
  Ok (fold_left (get_s3_list_body bucket_query) dt_range (key_list, s3conn)).

(** ** Composite extractor: the time series *)

Section BuildTimeSeries.

Variable Radar : Type.
Variable pyart_graph_RadarDisplay : Radar -> RadarDisplay.

(** [pd.to_datetime(text, format=fmt)] *)
Variable to_datetime : string -> string -> result Timestamp.

(** [pyart.io.read] on the content of a file. *)
Variable pyart_io_read : file -> result Radar.

(** [pyart.io.read(path)] on the local filesystem. *)
Definition pyart_io_read_path (fs : filesystem) (path : string) : result Radar :=
  match fs path with
  | Some f => pyart_io_read f
  | None => Raise OSError
  end.

(** The lists [times], [rays] and [ranges]. *)
Definition accumulators : Type :=
  (list Timestamp * list (list float) * list (list Q))%type.

Definition no_items : accumulators := ([], [], []).

Definition get_composite_from_list_body (fs : filesystem)
  (radar_id field : string) (azimuth : Q) (st : accumulators) (filen : string)
  : result accumulators :=
  let '(times, rays, rngs) := st in
  let '(path, filename) := os_path_split filen in
  t <- to_datetime (os_path_basename filename) (NEX_FMT_format radar_id) ;;
  let times := times ++ [t] in
  r <- pyart_io_read_path fs filen ;;
  '(ray, rng) <- get_composite_field Radar pyart_graph_RadarDisplay r field azimuth ;;
  let rays := rays ++ [ray] in
  let rngs := rngs ++ [rng] in
  Ok (times, rays, rngs).

Definition get_composite_from_list (fs : filesystem) (file_list : list string)
  (radar_id field : string) (azimuth : Q) : result Dataset :=
  '(times, rays, rngs) <-
    for_each (get_composite_from_list_body fs radar_id field azimuth)
             file_list no_items ;;
  make_dataset times rays rngs.

(** The [try: ... except: pass] block: whatever is raised inside is
    dropped, and the appends made before it stay. *)
Definition try_read_and_append (radar_id field : string) (azimuth : Q)
  (st : accumulators) (filename : string) (temp88d : file) : accumulators :=
  let '(times, rays, rngs) := st in
  match pyart_io_read temp88d with
  | Raise _ => st
  | Ok r =>
      match to_datetime (os_path_basename filename) (NEX_FMT_format radar_id) with
      | Raise _ => st
      | Ok t =>
          let times := times ++ [t] in
          match get_composite_field Radar pyart_graph_RadarDisplay r field azimuth with
          | Raise _ => (times, rays, rngs)
          | Ok (ray, rng) => (times, rays ++ [ray], rngs ++ [rng])
          end
      end
  end.

Definition get_composite_from_s3_list_body (s3conn : S3FileSystem)
  (radar_id field : string) (azimuth : Q) (st : accumulators) (filen : string)
  : result accumulators :=
  let '(path, filename) := os_path_split filen in
  temp88d <- s3_open s3conn filen ;;
  Ok (try_read_and_append radar_id field azimuth st filename temp88d).

Definition get_composite_from_s3_list (backend : S3Backend)
  (file_list : list string) (radar_id field : string) (azimuth : Q)
  : result Dataset :=
  let s3conn := S3FileSystem_anon backend in
  '(times, rays, rngs) <-
    for_each (get_composite_from_s3_list_body s3conn radar_id field azimuth)
             file_list no_items ;;
  make_dataset times rays rngs.

End BuildTimeSeries.

(** ** Opening a local file *)

Definition fs_set (fs : filesystem) (path : string) (v : option file) : filesystem :=
  fun p => if String.eqb p path then v else fs p.

Definition is_absent {A : Type} (o : option A) : bool :=
  match o with
  | Some _ => false
  | None => true
  end.

(** The name a [.gz] name decompresses to, if it is one. *)
Fixpoint strip_gz (s : string) : option string :=
  match s with
  | EmptyString => None
  | String c s' =>
      if String.eqb s' ".gz" then Some (String c EmptyString)
      else option_map (String c) (strip_gz s')
  end.

(** [gunzip name]: [base.gz] is replaced by [base], unless [base] exists. *)
Definition gunzip_file (fs : filesystem) (name : string) : filesystem :=
  match strip_gz name, fs name with
  | Some base, Some f =>
      if gzipped f && is_absent (fs base)
      then fs_set (fs_set fs name None) base
                  (Some {| gzipped := false; payload := payload f |})
      else fs
  | _, _ => fs
  end.

(** [gzip name]: [name] is replaced by [name.gz], unless that exists or
    [name] is compressed already. *)
Definition gzip_file (fs : filesystem) (name : string) : filesystem :=
  match fs name with
  | Some f =>
      if negb (gzipped f) && is_absent (strip_gz name)
         && is_absent (fs (name ++ ".gz")%string)
      then fs_set (fs_set fs name None) (name ++ ".gz")%string
                  (Some {| gzipped := true; payload := payload f |})
      else fs
  | None => fs
  end.

Definition is_blank (c : ascii) : bool :=
  Ascii.eqb c " " || Ascii.eqb c "009" || Ascii.eqb c "010".

Fixpoint split_blanks (s : string) : list string :=
  match s with
  | EmptyString => [EmptyString]
  | String c s' =>
      let ws := split_blanks s' in
      if is_blank c then EmptyString :: ws
      else match ws with
           | w :: ws' => String c w :: ws'
           | [] => [String c EmptyString]
           end
  end.

(** The words the shell makes of a command line free of quoting and
    expansion characters. *)
Definition shell_words (cmd : string) : list string :=
  filter (fun w => negb (String.eqb w "")) (split_blanks cmd).

(** [os.system(cmd)] for the one command the module runs; its exit
    status is not looked at, and nothing is raised. *)
Definition os_system (fs : filesystem) (cmd : string) : filesystem :=
  match shell_words cmd with
  | prog :: args =>
      if String.eqb prog "gzip" then fold_left gzip_file args fs else fs
  | [] => fs
  end.

(** Modelled from the spec: [try_file_gunzip] is called by
    [open_nexrad_file] and defined nowhere in the module.  The
    specification has a key that refers to a compressed local file
    decompressed in place before it is opened; the function answers the
    name to open and whether it decompressed. *)
Definition try_file_gunzip (fs : filesystem) (filename : string)
  : (string * bool) * filesystem :=
  match strip_gz filename, fs filename with
  | Some base, Some f =>
      if gzipped f && is_absent (fs base)
      then ((base, true), gunzip_file fs filename)
      else ((filename, false), fs)
  | _, _ => ((filename, false), fs)
  end.

(** [str.lower] *)
Fixpoint str_lower (s : string) : string :=
  match s with
  | EmptyString => EmptyString
  | String c s' => String (lower c) (str_lower s')
  end.

Section OpenLocal.

Variable Radar : Type.

(** [pyart.aux_io.read_radx] and [pyart.io.read_nexrad_archive] on the
    content of a file. *)
Variable pyart_aux_io_read_radx : file -> result Radar.
Variable pyart_io_read_nexrad_archive : file -> result Radar.

Definition read_path (read : file -> result Radar) (fs : filesystem)
  (path : string) : result Radar :=
  match fs path with
  | Some f => read f
  | None => Raise OSError
  end.

(** [open_nexrad_file]: what it returns or raises, and the filesystem it
    leaves. *)
Definition open_nexrad_file (fs : filesystem) (filename io : string)
  : result Radar * filesystem :=
  let '((filename, zipped), fs) := try_file_gunzip fs filename in
  let read :=
    if String.eqb (str_lower io) "radx" then pyart_aux_io_read_radx
    else pyart_io_read_nexrad_archive in
  match read_path read fs filename with
  | Raise e => (Raise e, fs)
  | Ok radar =>
      let fs := if zipped then os_system fs ("gzip " ++ filename)%string else fs in
      (Ok radar, fs)
  end.

End OpenLocal.

(** ** The specification's wording, for comparison *)

(** [a <= b] on doubles. *)
Definition fleb (a b : float) : bool :=
  match a, b with
  | NaN, _ | _, NaN => false
  | _, _ => negb (fltb b a)
  end.

(** The specification masks every cell whose absolute value is at least
    1000. *)
Definition mask_saturated_spec (v : float) : float :=
  if fleb (Fin 1000%Q) v || fleb v (Fin (-1000)%Q) then NaN else v.

Definition composite_spec (ray : ndarray) : result (list float) :=
  nanmax_axis0 (map (map mask_saturated_spec) ray).

(** A cell the code keeps: finite, between -1000 and 1000 inclusive. *)
Definition in_band (q : Q) : Prop := (-1000 <= q)%Q /\ (q <= 1000)%Q.

(** [v] is the maximum of the kept cells of the column [col], or NaN
    when the column has none. *)
Definition bin_maximum (col : list float) (v : float) : Prop :=
  (v = NaN /\ forall q, In (Fin q) col -> ~ in_band q)
  \/ (exists q, v = Fin q /\ In (Fin q) col /\ in_band q
        /\ forall q', In (Fin q') col -> in_band q' -> (q' <= q)%Q).

Definition column (j : nat) (a : ndarray) : list float :=
  map (fun row => nth j row NaN) a.

(** ** A small world, for examples

    A volume is a list of sweeps, a sweep a list of beams, a beam an
    azimuth with the gates of each field it carries.  Its display hands
    out, for a field and a target azimuth, the gates of the nearest beam
    of every sweep. *)

Local Open Scope Z_scope.

Record beam : Type := {
  beam_azimuth : Q;
  beam_gates : list (string * list float)
}.

Record volume : Type := {
  sweeps : list (list beam);
  gate_ranges : list Q
}.

Fixpoint assoc {A : Type} (k : string) (l : list (string * A)) : option A :=
  match l with
  | [] => None
  | (k', a) :: l' => if String.eqb k' k then Some a else assoc k l'
  end.

Fixpoint nearest_beam (target : Q) (best : beam) (bs : list beam) : beam :=
  match bs with
  | [] => best
  | b :: bs' =>
      nearest_beam target
        (if Qltb (Qabs (beam_azimuth b - target)) (Qabs (beam_azimuth best - target))
         then b else best)
        bs'
  end.

Definition sweep_gates (field : string) (target : Q) (s : list beam)
  : result (list float) :=
  match s with
  | [] => Raise ValueError
  | b :: bs =>
      match assoc field (beam_gates (nearest_beam target b bs)) with
      | Some g => Ok g
      | None => Raise KeyError
      end
  end.

Fixpoint map_result {A B : Type} (f : A -> result B) (l : list A) : result (list B) :=
  match l with
  | [] => Ok []
  | a :: l' => b <- f a ;; bs <- map_result f l' ;; Ok (b :: bs)
  end.

Definition display_of_volume (v : volume) : RadarDisplay :=
  {| _get_azimuth_rhi_data_x_y_z := fun field azimuth _ _ _ _ =>
       data <- map_result (sweep_gates field azimuth) (sweeps v) ;;
       Ok (data, [], [], []);
     ranges := gate_ranges v |}.

Definition cell (z : Z) : float := Fin (inject_Z z).

Definition one_beam (az : Z) (refl vel : list Z) : beam :=
  {| beam_azimuth := inject_Z az;
     beam_gates := [("reflectivity", map cell refl); ("velocity", map cell vel)] |}.

(** Two sweeps of two beams; the beams at 230 degrees are the nearest to
    235. *)
Definition volume_a : volume :=
  {| sweeps := [ [one_beam 90 [40; 41; 42] [1; 1; 1];
                  one_beam 230 [1000; 5; 2000] [7; 8; 9]];
                 [one_beam 230 [3; -1000; -3000] [4; 5; 6];
                  one_beam 300 [50; 51; 52] [2; 2; 2]] ];
     gate_ranges := [inject_Z 0; inject_Z 250; inject_Z 500] |}.

Definition volume_b : volume :=
  {| sweeps := [ [one_beam 235 [10; 20; 30] [0; 0; 0]] ];
     gate_ranges := [inject_Z 0; inject_Z 250; inject_Z 500] |}.

(** A volume that carries no reflectivity. *)
Definition volume_v : volume :=
  {| sweeps := [ [ {| beam_azimuth := inject_Z 235;
                      beam_gates := [("velocity", map cell [1; 2; 3])] |} ] ];
     gate_ranges := [inject_Z 0; inject_Z 250; inject_Z 500] |}.

(** A decoder that knows three payloads and reads no compressed file. *)
Definition sample_read (f : file) : result volume :=
  if gzipped f then Raise (LibraryError "compressed")
  else if String.eqb (payload f) "VOLUME-A" then Ok volume_a
  else if String.eqb (payload f) "VOLUME-B" then Ok volume_b
  else if String.eqb (payload f) "VOLUME-V" then Ok volume_v
  else Raise (LibraryError "not a radar volume").

Definition plain (content : string) : file :=
  {| gzipped := false; payload := content |}.

Definition key_0004 : string :=
  "noaa-nexrad-level2/2020/06/15/KATX/KATX20200615_000411_V06".
Definition key_0010 : string :=
  "noaa-nexrad-level2/2020/06/15/KATX/KATX20200615_001002_V06".
Definition key_0016 : string :=
  "noaa-nexrad-level2/2020/06/15/KATX/KATX20200615_001553_V06".
Definition key_mdm : string :=
  "noaa-nexrad-level2/2020/06/15/KATX/KATX20200615_000411_V06_MDM".

(** A store whose second object is corrupted. *)
Definition store_corrupted : list (string * file) :=
  [(key_0004, plain "VOLUME-A"); (key_0010, plain "garbage");
   (key_0016, plain "VOLUME-B")].

(** A store whose second object decodes but carries no reflectivity. *)
Definition store_no_reflectivity : list (string * file) :=
  [(key_0004, plain "VOLUME-A"); (key_0010, plain "VOLUME-V")].

(** A store that holds a volume and its metadata object. *)
Definition store_with_metadata : list (string * file) :=
  [(key_0004, plain "VOLUME-A"); (key_mdm, plain "VOLUME-B")].

Definition local_of_objects (objs : list (string * file)) : filesystem :=
  fun p => assoc p objs.

(** A directory with one compressed file that is not a radar volume. *)
Definition dir_garbage : filesystem :=
  local_of_objects [("scan.gz", {| gzipped := true; payload := "garbage" |})].


Definition stamp (y m d H M S : Z) : Timestamp :=
  At {| year := y; month := m; day := d; hour := H; minute := M; second := S |}.

(** ** Vocabulary: the outcome of one file *)

Section Outcomes.

Variable Radar : Type.
Variable pyart_graph_RadarDisplay : Radar -> RadarDisplay.
Variable to_datetime : string -> string -> result Timestamp.
Variable pyart_io_read : file -> result Radar.

(** What the three fallible steps of one file yield, in the order the
    remote variant runs them: the volume is decoded, the time is read
    off the name, the profile is extracted. *)
Definition process_file (radar_id field : string) (azimuth : Q)
  (filen : string) (f : file) : result (Timestamp * list float * list Q) :=
  r <- pyart_io_read f ;;
  t <- to_datetime (os_path_basename filen) (NEX_FMT_format radar_id) ;;
  '(ray, rng) <- get_composite_field Radar pyart_graph_RadarDisplay r field azimuth ;;
  Ok (t, ray, rng).

End Outcomes.

(** ** Vocabulary: keys and patterns *)








(** ** Vocabulary: compressed local files *)

(** A key that refers to a compressed local file: its name ends in
    [.gz], the file it names is compressed, and the name it decompresses
    to is free. *)
Definition compressed_at (fs : filesystem) (filename base : string) (f : file) : Prop :=
  strip_gz filename = Some base
  /\ fs filename = Some f
  /\ gzipped f = true
  /\ fs base = None.


Definition decompressed (f : file) : file :=
  {| gzipped := false; payload := payload f |}.

(** ** Vocabulary: the rows of the table *)

(** A file with everything its processing yields. *)
Record processed : Type := {
  p_key : string;
  p_file : file;
  p_time : Timestamp;
  p_profile : list float;
  p_range : list Q
}.


(** ** Vocabulary: further statements *)

(** A value a profile can hold: NaN, or a finite value between -1000 and
    1000. *)
Definition missing_or_in_band (v : float) : Prop :=
  v = NaN \/ exists q, v = Fin q /\ in_band q.

(** The instants [get_s3_list] formats, for bounds given in seconds. *)
Definition hourly_instants (b e : Z) : list datetime :=
  map (fun k : nat => of_seconds (b + Z.of_nat k * one_hour))
      (seq 0 (Z.to_nat ((e - b) / one_hour + 1))).



Section LocalOutcome.

Variable Radar : Type.
Variable pyart_graph_RadarDisplay : Radar -> RadarDisplay.
Variable to_datetime : string -> string -> result Timestamp.
Variable pyart_io_read : file -> result Radar.

(** The three fallible steps of one file in the order the local variant
    runs them: the time is read off the name, the volume is decoded, the
    profile is extracted. *)
Definition local_file (fs : filesystem) (radar_id field : string) (azimuth : Q)
  (filen : string) : result (Timestamp * list float * list Q) :=
  t <- to_datetime (os_path_basename filen) (NEX_FMT_format radar_id) ;;
  r <- pyart_io_read_path Radar pyart_io_read fs filen ;;
  '(ray, rng) <- get_composite_field Radar pyart_graph_RadarDisplay r field azimuth ;;
  Ok (t, ray, rng).

End LocalOutcome.

(** ** More of the small world *)

(** A volume with two range bins only. *)
Definition volume_short : volume :=
  {| sweeps := [ [one_beam 235 [10; 20] [0; 0]] ];
     gate_ranges := [inject_Z 0; inject_Z 250] |}.

(** The decoder of the small world, which also knows the short volume. *)
Definition sample_read_more (f : file) : result volume :=
  if String.eqb (payload f) "VOLUME-S" then Ok volume_short else sample_read f.

Definition store_short : list (string * file) :=
  [(key_0004, plain "VOLUME-A"); (key_0016, plain "VOLUME-S")].

Definition item_0004 : processed :=
  {| p_key := key_0004; p_file := plain "VOLUME-A";
     p_time := stamp 2020 6 15 0 4 11;
     p_profile := [cell 1000; cell 5; NaN];
     p_range := gate_ranges volume_a |}.

Definition item_0016 : processed :=
  {| p_key := key_0016; p_file := plain "VOLUME-B";
     p_time := stamp 2020 6 15 0 15 53;
     p_profile := [cell 10; cell 20; cell 30];
     p_range := gate_ranges volume_b |}.

Definition item_short : processed :=
  {| p_key := key_0016; p_file := plain "VOLUME-S";
     p_time := stamp 2020 6 15 0 15 53;
     p_profile := [cell 10; cell 20];
     p_range := gate_ranges volume_short |}.

Definition key_absent : string :=
  "noaa-nexrad-level2/2020/06/15/KATX/KATX20200615_002501_V06".

Definition table_0004_0016 : Dataset :=
  {| ds_time := [stamp 2020 6 15 0 4 11; stamp 2020 6 15 0 15 53];
     ds_range := gate_ranges volume_a;
     ds_ref := [[cell 1000; cell 5; NaN]; [cell 10; cell 20; cell 30]] |}.

(** ** Vocabulary: dates handed over as strings *)






(** * Properties *)

(** ** The result type *)

Lemma bind_Ok {A B : Type} (a : A) (k : A -> result B) :
  bind (Ok a) k = k a.
Proof. reflexivity. Qed.

Lemma bind_Raise {A B : Type} (e : exn) (k : A -> result B) :
  bind (Raise e) k = Raise e.
Proof. reflexivity. Qed.

Lemma for_each_app {A S : Type} (body : S -> A -> result S) (l1 l2 : list A) (s : S) :
  for_each body (l1 ++ l2) s = s' <- for_each body l1 s ;; for_each body l2 s'.
Proof.
  revert s; induction l1 as [|a l1 IH]; intros s; simpl.
  - reflexivity.
  - destruct (body s a) as [s'|e]; simpl; [apply IH | reflexivity].
Qed.

(** ** Masking and the maximum over the rays *)

Lemma Qltb_true (p q : Q) : Qltb p q = true <-> (p < q)%Q.
Proof.
  unfold Qltb. rewrite Qlt_alt.
  destruct (Qcompare p q); split; intros H; congruence.
Qed.

Lemma Qltb_false (p q : Q) : Qltb p q = false <-> (q <= p)%Q.
Proof.
  split; intros H.
  - apply Qnot_lt_le. intros Hlt. apply Qltb_true in Hlt. congruence.
  - destruct (Qltb p q) eqn:E; [|reflexivity].
    apply Qltb_true in E. exfalso. exact (Qlt_not_le _ _ E H).
Qed.

(** What masking does to a finite cell: strictly above 1000 or strictly
    below -1000 it becomes NaN, otherwise it stays. *)
Lemma mask_saturated_Fin (q : Q) :
  (in_band q /\ mask_saturated (Fin q) = Fin q)
  \/ (~ in_band q /\ mask_saturated (Fin q) = NaN).
Proof.
  unfold mask_saturated, fgtb, fltb, in_band.
  destruct (Qltb 1000 q) eqn:Hhi; simpl.
  - right. apply Qltb_true in Hhi. split; [|reflexivity].
    intros [_ H]. exact (Qlt_not_le _ _ Hhi H).
  - apply Qltb_false in Hhi.
    destruct (Qltb q (-1000)) eqn:Hlo.
    + right. apply Qltb_true in Hlo. split; [|reflexivity].
      intros [H _]. exact (Qlt_not_le _ _ Hlo H).
    + left. apply Qltb_false in Hlo. auto.
Qed.

Lemma mask_saturated_not_Fin (w : float) :
  (forall q, w <> Fin q) -> mask_saturated w = NaN.
Proof.
  destruct w as [| |q|]; intros H; try reflexivity.
  exfalso. exact (H q eq_refl).
Qed.

(** One more cell of a column: the invariant of the running maximum. *)
Lemma bin_maximum_step (seen : list float) (acc w : float) :
  bin_maximum seen acc ->
  bin_maximum (seen ++ [w]) (fmax acc (mask_saturated w)).
Proof.
  intros Hacc.
  assert (Hw : (exists q, w = Fin q /\ in_band q /\ mask_saturated w = Fin q)
               \/ ((forall q, w = Fin q -> ~ in_band q) /\ mask_saturated w = NaN)).
  { destruct w as [| |q|];
      try (right; split; [intros q' Hq'; discriminate | reflexivity]).
    destruct (mask_saturated_Fin q) as [[Hb Hm]|[Hb Hm]].
    - left. exists q. auto.
    - right. split; [|exact Hm]. intros q' Hq'. injection Hq' as <-. exact Hb. }
  destruct Hacc as [[-> Hnone]|(q & -> & Hin & Hband & Hmax)].
  - (* nothing kept so far *)
    destruct Hw as [(qw & -> & Hbw & ->)|[Hnw ->]]; simpl.
    + right. exists qw. split; [reflexivity|]. split; [|split; [exact Hbw|]].
      * apply in_or_app. right. left. reflexivity.
      * intros q' Hq' Hb'. apply in_app_or in Hq' as [Hq'|[Hq'|[]]].
        -- exfalso. exact (Hnone _ Hq' Hb').
        -- injection Hq' as <-. apply Qle_refl.
    + left. split; [reflexivity|].
      intros q' Hq'. apply in_app_or in Hq' as [Hq'|[Hq'|[]]].
      * exact (Hnone _ Hq').
      * exact (Hnw _ Hq').
  - (* a maximum so far *)
    destruct Hw as [(qw & -> & Hbw & ->)|[Hnw ->]]; simpl.
    + destruct (Qltb q qw) eqn:Hcmp.
      * apply Qltb_true in Hcmp.
        right. exists qw. split; [reflexivity|]. split; [|split; [exact Hbw|]].
        -- apply in_or_app. right. left. reflexivity.
        -- intros q' Hq' Hb'. apply in_app_or in Hq' as [Hq'|[Hq'|[]]].
           ++ apply Qle_trans with q; [exact (Hmax _ Hq' Hb')|].
              apply Qlt_le_weak. exact Hcmp.
           ++ injection Hq' as <-. apply Qle_refl.
      * apply Qltb_false in Hcmp.
        right. exists q. split; [reflexivity|]. split; [|split; [exact Hband|]].
        -- apply in_or_app. left. exact Hin.
        -- intros q' Hq' Hb'. apply in_app_or in Hq' as [Hq'|[Hq'|[]]].
           ++ exact (Hmax _ Hq' Hb').
           ++ injection Hq' as <-. exact Hcmp.
    + right. exists q. split; [reflexivity|]. split; [|split; [exact Hband|]].
      * apply in_or_app. left. exact Hin.
      * intros q' Hq' Hb'. apply in_app_or in Hq' as [Hq'|[Hq'|[]]].
        -- exact (Hmax _ Hq' Hb').
        -- exfalso. exact (Hnw _ Hq' Hb').
Qed.

Lemma bin_maximum_fold (col seen : list float) (acc : float) :
  bin_maximum seen acc ->
  bin_maximum (seen ++ col) (fold_left fmax (map mask_saturated col) acc).
Proof.
  revert seen acc; induction col as [|w col IH]; intros seen acc Hacc; simpl.
  - rewrite app_nil_r. exact Hacc.
  - replace (seen ++ w :: col) with ((seen ++ [w]) ++ col)
      by (rewrite <- app_assoc; reflexivity).
    apply IH. apply bin_maximum_step. exact Hacc.
Qed.

Lemma bin_maximum_first (w : float) : bin_maximum [w] (mask_saturated w).
Proof.
  assert (H : bin_maximum ([] ++ [w]) (fmax NaN (mask_saturated w))).
  { apply bin_maximum_step. left. split; [reflexivity|]. intros q []. }
  exact H.
Qed.

Lemma map2_length {A : Type} (f : A -> A -> A) (n : nat) (l1 l2 : list A) :
  length l1 = n -> length l2 = n -> length (map2 f l1 l2) = n.
Proof.
  revert n l2; induction l1 as [|a l1 IH]; intros n [|b l2] H1 H2; simpl in *;
    try congruence.
  destruct n as [|n]; [discriminate|].
  f_equal. apply IH; congruence.
Qed.

Lemma map2_nth (f : float -> float -> float) (l1 l2 : list float) (j : nat) :
  length l1 = length l2 -> (j < length l1)%nat ->
  nth j (map2 f l1 l2) NaN = f (nth j l1 NaN) (nth j l2 NaN).
Proof.
  revert l2 j; induction l1 as [|a l1 IH]; intros [|b l2] j Hlen Hj; simpl in *;
    try lia; try discriminate.
  destruct j as [|j]; [reflexivity|].
  apply IH; lia.
Qed.

(** The reduction along the rows, read one column at a time. *)
Lemma fold_map2_column (n : nat) (rows : ndarray) (row : list float) (j : nat) :
  length row = n -> rectangular n rows -> (j < n)%nat ->
  length (fold_left (map2 fmax) rows row) = n
  /\ nth j (fold_left (map2 fmax) rows row) NaN
     = fold_left fmax (column j rows) (nth j row NaN).
Proof.
  revert row; induction rows as [|r rows IH]; intros row Hrow Hrect Hj; simpl.
  - split; [exact Hrow | reflexivity].
  - inversion Hrect as [|r' rows' Hr Hrows]; subst.
    destruct (IH (map2 fmax row r)) as [Hlen Hnth]; auto.
    { apply map2_length; auto. }
    split; [exact Hlen|].
    rewrite Hnth. f_equal. apply map2_nth; lia.
Qed.

Lemma nth_map_mask (j : nat) (row : list float) :
  nth j (map mask_saturated row) NaN = mask_saturated (nth j row NaN).
Proof. exact (map_nth mask_saturated row NaN j). Qed.

Lemma column_map_mask (j : nat) (a : ndarray) :
  column j (map (map mask_saturated) a) = map mask_saturated (column j a).
Proof.
  unfold column. rewrite !map_map. apply map_ext. intros row.
  apply nth_map_mask.
Qed.

Lemma rectangular_map_mask (n : nat) (a : ndarray) :
  rectangular n a -> rectangular n (map (map mask_saturated) a).
Proof.
  unfold rectangular. intros H. apply Forall_map.
  eapply Forall_impl; [|exact H]. intros row Hrow. simpl.
  rewrite length_map. exact Hrow.
Qed.

(** C1 (as amended).  For every radar volume and requested azimuth,
    [get_composite_field] replaces by NaN every cell strictly greater
    than 1000 or strictly less than -1000 and then takes, over the rays,
    the maximum of each range bin with NaN ignored: the profile has one
    value per range bin, which is the largest finite cell of that bin
    between -1000 and 1000 inclusive (so a cell of exactly 1000 or -1000
    takes part in the maximum), or NaN when the bin has no such cell. *)
Theorem get_composite_field_profile :
  forall (Radar : Type) (display : Radar -> RadarDisplay) (radar : Radar)
         (field : string) (azimuth : Q) (ray x y z : ndarray) (n : nat),
    _get_azimuth_rhi_data_x_y_z (display radar) "reflectivity" azimuth
      true None true None = Ok (ray, x, y, z) ->
    ray <> [] ->
    rectangular n ray ->
    exists prof : list float,
      get_composite_field Radar display radar field azimuth
      = Ok (prof, ranges (display radar))
      /\ length prof = n
      /\ forall j : nat, (j < n)%nat ->
           bin_maximum (column j ray) (nth j prof NaN).
Proof.
  intros Radar display radar field azimuth ray x y z n Hlib Hne Hrect.
  unfold get_composite_field. rewrite Hlib. simpl.
  destruct ray as [|row rows]; [congruence|]. simpl.
  inversion Hrect as [|r rs Hrow Hrows]; subst.
  eexists. split; [reflexivity|].
  assert (Hrow' : length (map mask_saturated row) = length row)
    by apply length_map.
  pose proof (rectangular_map_mask _ _ Hrows) as Hrows'.
  split.
  - destruct (length row) as [|m] eqn:Hm.
    + clear - Hrow' Hrows'.
      revert Hrow' Hrows'. generalize (map mask_saturated row).
      induction (map (map mask_saturated) rows) as [|r rs IH]; intros l Hl Hrs; simpl.
      * exact Hl.
      * inversion Hrs; subst. apply IH; [|assumption].
        apply map2_length; assumption.
    + apply (fold_map2_column (S m) _ _ 0%nat); auto; lia.
  - intros j Hj.
    destruct (fold_map2_column (length row) (map (map mask_saturated) rows)
                (map mask_saturated row) j Hrow' Hrows' Hj) as [_ Hnth].
    rewrite Hnth, column_map_mask, nth_map_mask.
    apply (bin_maximum_fold (column j rows) [nth j row NaN]).
    apply bin_maximum_first.
Qed.

Lemma get_composite_field_profile_witness :
  exists prof : list float,
    get_composite_field volume display_of_volume volume_a "reflectivity" (235 # 1)
    = Ok (prof, ranges (display_of_volume volume_a))
    /\ length prof = 3%nat
    /\ forall j : nat, (j < 3)%nat ->
         bin_maximum
           (column j [[cell 1000; cell 5; cell 2000];
                      [cell 3; cell (-1000); cell (-3000)]])
           (nth j prof NaN).
Proof.
  apply (get_composite_field_profile volume display_of_volume volume_a
           "reflectivity" (235 # 1)
           [[cell 1000; cell 5; cell 2000]; [cell 3; cell (-1000); cell (-3000)]]
           [] [] [] 3%nat).
  - reflexivity.
  - discriminate.
  - repeat constructor.
Defined.

(** C1 (as stated) fails on a cell of exactly 1000: the beams nearest to
    235 degrees carry 1000 and 3 in the first range bin; the code's
    profile has 1000 there, where masking every absolute value of at least
    1000 would leave 3. *)
Lemma composite_keeps_exactly_1000 :
  _get_azimuth_rhi_data_x_y_z (display_of_volume volume_a) "reflectivity" (235 # 1)
    true None true None
  = Ok ([[cell 1000; cell 5; cell 2000]; [cell 3; cell (-1000); cell (-3000)]],
        [], [], [])
  /\ get_composite_field volume display_of_volume volume_a "reflectivity" (235 # 1)
     = Ok ([cell 1000; cell 5; NaN], gate_ranges volume_a)
  /\ composite_spec
       [[cell 1000; cell 5; cell 2000]; [cell 3; cell (-1000); cell (-3000)]]
     = Ok [cell 3; cell 5; NaN].
Proof. repeat split; reflexivity. Qed.

(** The [field] argument plays no part in the result. *)
Lemma get_composite_field_any_field :
  forall (Radar : Type) (display : Radar -> RadarDisplay) (radar : Radar)
         (field field' : string) (azimuth : Q),
    get_composite_field Radar display radar field azimuth
    = get_composite_field Radar display radar field' azimuth.
Proof. reflexivity. Qed.

(** C2 (the code at the failing input).  Asked for the velocity of a
    volume along 235 degrees, [get_composite_field] answers the composite
    of its reflectivity: the arrays it obtains are those of the fixed
    field ["reflectivity"], not of the field it was given, whose gates
    along that azimuth are different. *)
Theorem get_composite_field_velocity :
  get_composite_field volume display_of_volume volume_a "velocity" (235 # 1)
  = Ok ([cell 1000; cell 5; NaN], gate_ranges volume_a)
  /\ get_composite_field volume display_of_volume volume_a "velocity" (235 # 1)
     = get_composite_field volume display_of_volume volume_a "reflectivity" (235 # 1)
  /\ _get_azimuth_rhi_data_x_y_z (display_of_volume volume_a) "velocity" (235 # 1)
       true None true None
     = Ok ([[cell 7; cell 8; cell 9]; [cell 4; cell 5; cell 6]], [], [], []).
Proof. repeat split; reflexivity. Qed.

(** ** Locator *)

(** C5.  For every year, month, day, station and bucket,
    [get_s3_list_by_str] builds the prefix
    bucket/year/month/day/station/station+year+month+day, appends ["_"]
    and the hour-minute exactly when one is supplied, sends the store the
    one pattern made of that prefix and a wildcard, and returns the keys
    the store lists for it together with the prefix. *)
Theorem get_s3_list_by_str_prefix :
  forall (backend : S3Backend) (year month day radar_id bucket : pyval)
         (hhmm : option pyval),
    let base :=
      (py_str bucket ++ "/" ++ py_str year ++ "/" ++ py_str month ++ "/"
       ++ py_str day ++ "/" ++ py_str radar_id ++ "/"
       ++ (py_str radar_id ++ py_str year ++ py_str month ++ py_str day))%string in
    let prefix :=
      match hhmm with
      | None => base
      | Some hm => (base ++ "_" ++ py_str hm)%string
      end in
    let '((key_list, bucket_query), s3conn) :=
      get_s3_list_by_str backend year month day hhmm radar_id bucket in
    bucket_query = prefix
    /\ s3_queries s3conn = [(prefix ++ "*")%string]
    /\ key_list = s3_listing backend (prefix ++ "*")%string.
Proof.
  intros backend year month day radar_id bucket hhmm.
  destruct hhmm as [hm|]; simpl; repeat split; reflexivity.
Qed.

Lemma get_s3_list_loop (backend : S3Backend) (bucket_query : string)
  (dt_range : list datetime) (key_list queries : list string) :
  let patterns := map (fun t => (strftime t bucket_query ++ "*")%string) dt_range in
  fold_left (get_s3_list_body bucket_query) dt_range
    (key_list, {| s3_backend := backend; s3_queries := queries |})
  = (key_list ++ concat (map (s3_listing backend) patterns),
     {| s3_backend := backend; s3_queries := queries ++ patterns |}).
Proof.
  revert key_list queries; induction dt_range as [|t ts IH];
    intros key_list queries; simpl.
  - rewrite !app_nil_r. reflexivity.
  - rewrite IH. simpl.
    rewrite <- !app_assoc. reflexivity.
Qed.



(** *** The template, filled *)




(** ** Paths *)

Lemma rsplit_slash_tail (p h t : string) :
  rsplit_slash p = Some (h, t) -> rsplit_slash t = None.
Proof.
  revert h t; induction p as [|c p IH]; intros h t; simpl; [discriminate|].
  destruct (rsplit_slash p) as [[h' t']|] eqn:E.
  - intros H. injection H as _ <-. exact (IH _ _ eq_refl).
  - destruct (is_slash c); [|discriminate].
    intros H. injection H as _ <-. exact E.
Qed.

(** The base name of the second component of [os.path.split] is the base
    name of the path. *)
Lemma os_path_basename_tail (p : string) :
  os_path_basename (snd (os_path_split p)) = os_path_basename p.
Proof.
  unfold os_path_split, os_path_basename.
  destruct (rsplit_slash p) as [[h t]|] eqn:E; simpl.
  - rewrite (rsplit_slash_tail _ _ _ E). reflexivity.
  - rewrite E. reflexivity.
Qed.

(** ** The time series *)

Section TimeSeries.

Variable Radar : Type.
Variable display : Radar -> RadarDisplay.
Variable to_datetime : string -> string -> result Timestamp.
Variable pyart_io_read : file -> result Radar.

Variables radar_id field : string.
Variable azimuth : Q.

Local Abbreviation parse filen :=
  (to_datetime (os_path_basename filen) (NEX_FMT_format radar_id)).
Local Abbreviation extract r :=
  (get_composite_field Radar display r field azimuth).
Local Abbreviation process :=
  (process_file Radar display to_datetime pyart_io_read radar_id field azimuth).
Local Abbreviation local_body fs :=
  (get_composite_from_list_body Radar display to_datetime pyart_io_read
     fs radar_id field azimuth).
Local Abbreviation remote_body backend :=
  (get_composite_from_s3_list_body Radar display to_datetime pyart_io_read
     (S3FileSystem_anon backend) radar_id field azimuth).
Local Abbreviation local_series fs file_list :=
  (get_composite_from_list Radar display to_datetime pyart_io_read
     fs file_list radar_id field azimuth).
Local Abbreviation remote_series backend file_list :=
  (get_composite_from_s3_list Radar display to_datetime pyart_io_read
     backend file_list radar_id field azimuth).

Lemma process_file_Ok (filen : string) (f : file)
  (t : Timestamp) (p : list float) (g : list Q) :
  process filen f = Ok (t, p, g) <->
  exists r, pyart_io_read f = Ok r /\ parse filen = Ok t /\ extract r = Ok (p, g).
Proof.
  unfold process_file. split.
  - destruct (pyart_io_read f) as [r|e]; simpl; [|discriminate].
    destruct (to_datetime _ _) as [t'|e]; simpl; [|discriminate].
    destruct (get_composite_field _ _ _ _ _) as [[p' g']|e] eqn:Hx; simpl;
      [|discriminate].
    intros H. injection H as <- <- <-. exists r. auto.
  - intros (r & Hr & Ht & Hx).
    rewrite Hr. simpl. rewrite Ht. simpl. rewrite Hx. reflexivity.
Qed.

(** The body of the local loop, with the name it parses spelled out. *)
Lemma local_body_eq (fs : filesystem) (ts : list Timestamp)
  (rs : list (list float)) (gs : list (list Q)) (filen : string) :
  local_body fs (ts, rs, gs) filen
  = t <- parse filen ;;
    r <- pyart_io_read_path Radar pyart_io_read fs filen ;;
    '(ray, rng) <- extract r ;;
    Ok (ts ++ [t], rs ++ [ray], gs ++ [rng]).
Proof.
  unfold get_composite_from_list_body.
  rewrite <- (os_path_basename_tail filen).
  destruct (os_path_split filen) as [path filename]. simpl.
  destruct (to_datetime _ _); simpl; [|reflexivity].
  destruct (pyart_io_read_path _ _ _ _); simpl; [|reflexivity].
  destruct (get_composite_field _ _ _ _ _) as [[ray rng]|]; reflexivity.
Qed.

Lemma local_body_Ok (fs : filesystem) (ts : list Timestamp)
  (rs : list (list float)) (gs : list (list Q)) (filen : string) (f : file)
  (t : Timestamp) (p : list float) (g : list Q) :
  fs filen = Some f ->
  process filen f = Ok (t, p, g) ->
  local_body fs (ts, rs, gs) filen = Ok (ts ++ [t], rs ++ [p], gs ++ [g]).
Proof.
  intros Hfs Hp. apply process_file_Ok in Hp as (r & Hr & Ht & Hx).
  rewrite local_body_eq, Ht. simpl.
  unfold pyart_io_read_path. rewrite Hfs, Hr. simpl. rewrite Hx. reflexivity.
Qed.

Lemma local_body_parse_raises (fs : filesystem) (st : accumulators)
  (filen : string) (e : exn) :
  parse filen = Raise e -> local_body fs st filen = Raise e.
Proof.
  intros H. destruct st as [[ts rs] gs]. rewrite local_body_eq, H. reflexivity.
Qed.

(** The body of the remote loop: the object is opened outside the
    [try], everything else happens inside. *)
Lemma remote_body_eq (backend : S3Backend) (st : accumulators) (filen : string) :
  remote_body backend st filen
  = f <- s3_object backend filen ;;
    Ok (try_read_and_append Radar display to_datetime pyart_io_read
          radar_id field azimuth st (snd (os_path_split filen)) f).
Proof.
  unfold get_composite_from_s3_list_body.
  destruct (os_path_split filen) as [path filename]. reflexivity.
Qed.

Lemma try_Ok (ts : list Timestamp) (rs : list (list float)) (gs : list (list Q))
  (filen : string) (f : file) (t : Timestamp) (p : list float) (g : list Q) :
  process filen f = Ok (t, p, g) ->
  try_read_and_append Radar display to_datetime pyart_io_read
    radar_id field azimuth (ts, rs, gs) (snd (os_path_split filen)) f
  = (ts ++ [t], rs ++ [p], gs ++ [g]).
Proof.
  intros Hp. apply process_file_Ok in Hp as (r & Hr & Ht & Hx).
  unfold try_read_and_append. rewrite Hr, os_path_basename_tail, Ht, Hx.
  reflexivity.
Qed.

(** A failure of the decoding or of the parse leaves the lists as they
    were. *)
Lemma try_unchanged (st : accumulators) (filen : string) (f : file) :
  raises (pyart_io_read f) \/ raises (parse filen) ->
  try_read_and_append Radar display to_datetime pyart_io_read
    radar_id field azimuth st (snd (os_path_split filen)) f
  = st.
Proof.
  intros H. destruct st as [[ts rs] gs].
  unfold try_read_and_append. rewrite os_path_basename_tail.
  destruct (pyart_io_read f) as [r|e]; [|reflexivity].
  destruct H as [[e H]|[e H]]; [discriminate|].
  rewrite H. reflexivity.
Qed.

(** Any failure leaves the profiles and the range axes as they were; a
    time may have been appended. *)
Lemma try_raises (ts : list Timestamp) (rs : list (list float)) (gs : list (list Q))
  (filen : string) (f : file) :
  raises (process filen f) ->
  exists ts',
    try_read_and_append Radar display to_datetime pyart_io_read
      radar_id field azimuth (ts, rs, gs) (snd (os_path_split filen)) f
    = (ts', rs, gs).
Proof.
  intros [e H]. unfold process_file in H.
  unfold try_read_and_append. rewrite os_path_basename_tail.
  destruct (pyart_io_read f) as [r|e1]; simpl in *; [|eauto].
  destruct (to_datetime _ _) as [t|e2]; simpl in *; [|eauto].
  destruct (get_composite_field _ _ _ _ _) as [[p g]|e3]; simpl in *;
    [discriminate | eauto].
Qed.

Lemma remote_loop_no_profile (backend : S3Backend) (keys : list string)
  (ts : list Timestamp) (rs : list (list float)) (gs : list (list Q)) :
  (forall k, In k keys ->
     exists f, s3_object backend k = Ok f /\ raises (process k f)) ->
  exists ts', for_each (remote_body backend) keys (ts, rs, gs) = Ok (ts', rs, gs).
Proof.
  revert ts; induction keys as [|k keys IH]; intros ts Hall; cbn [for_each bind].
  - eauto.
  - destruct (Hall k (or_introl eq_refl)) as (f & Hf & Hfail).
    rewrite remote_body_eq, Hf. cbn [for_each bind].
    destruct (try_raises ts rs gs k f Hfail) as [ts' ->].
    apply IH. intros k' Hk'. apply Hall. right. exact Hk'.
Qed.

(** C10.  When the key list is empty, or in the remote variant when
    every file fails inside the [try] and is skipped, no table comes
    back: the range-axis list is still empty when its first element is
    taken, which raises [IndexError]. *)
Theorem no_profile_raises :
  forall (backend : S3Backend) (fs : filesystem) (keys : list string),
    (forall k, In k keys ->
       exists f, s3_object backend k = Ok f /\ raises (process k f)) ->
    remote_series backend keys = Raise IndexError
    /\ remote_series backend [] = Raise IndexError
    /\ local_series fs [] = Raise IndexError.
Proof.
  intros backend fs keys Hall.
  split; [|split; reflexivity].
  unfold get_composite_from_s3_list.
  destruct (remote_loop_no_profile backend keys [] [] [] Hall) as [ts' H].
  unfold no_items. rewrite H. reflexivity.
Qed.

(** C4.  Three remote keys, the second of which opens but does not
    decode: the remote variant returns the two-row table of the first and
    the third key, and raises nothing; the local variant on the same keys
    and files raises while it handles the second file, with that file's
    decoding error or, if its name does not parse, with the parse
    error. *)
Theorem corrupted_second_file :
  forall (backend : S3Backend) (fs : filesystem) (k1 k2 k3 : string)
         (f1 f2 f3 : file) (e : exn)
         (t1 t3 : Timestamp) (p1 p3 : list float) (g1 g3 : list Q),
    s3_object backend k1 = Ok f1 ->
    s3_object backend k2 = Ok f2 ->
    s3_object backend k3 = Ok f3 ->
    fs k1 = Some f1 ->
    fs k2 = Some f2 ->
    process k1 f1 = Ok (t1, p1, g1) ->
    pyart_io_read f2 = Raise e ->
    process k3 f3 = Ok (t3, p3, g3) ->
    length p1 = length g1 ->
    length p3 = length p1 ->
    remote_series backend [k1; k2; k3]
    = Ok {| ds_time := [t1; t3]; ds_range := g1; ds_ref := [p1; p3] |}
    /\ exists e',
         local_series fs [k1; k2; k3] = Raise e'
         /\ (e' = e \/ parse k2 = Raise e').
Proof.
  intros backend fs k1 k2 k3 f1 f2 f3 e t1 t3 p1 p3 g1 g3
         Ho1 Ho2 Ho3 Hf1 Hf2 Hp1 Hr2 Hp3 Hlen1 Hlen3.
  split.
  - unfold get_composite_from_s3_list, no_items. cbn [for_each bind].
    rewrite remote_body_eq, Ho1. cbn [for_each bind]. rewrite (try_Ok [] [] [] k1 f1 _ _ _ Hp1).
    cbn [for_each bind]. rewrite remote_body_eq, Ho2. cbn [for_each bind].
    rewrite (try_unchanged _ k2 f2) by (left; exists e; exact Hr2).
    rewrite remote_body_eq, Ho3. cbn [for_each bind].
    rewrite (try_Ok _ _ _ k3 f3 _ _ _ Hp3). cbn [for_each bind].
    unfold make_dataset. simpl.
    rewrite Hlen3, Hlen1, !Nat.eqb_refl. simpl.
    rewrite ?Hlen3, ?Hlen1, ?Nat.eqb_refl. reflexivity.
  - unfold get_composite_from_list, no_items. cbn [for_each bind].
    rewrite (local_body_Ok fs [] [] [] k1 f1 _ _ _ Hf1 Hp1). cbn [for_each bind].
    rewrite local_body_eq.
    destruct (parse k2) as [t2|e2] eqn:Ht2; cbn [for_each bind].
    + unfold pyart_io_read_path. rewrite Hf2, Hr2. cbn [for_each bind].
      exists e. auto.
    + exists e2. auto.
Qed.

(** C7 (as amended).  A key whose base name the timestamp parse refuses
    is fatal to the whole run of the local variant, where nothing catches
    the error.  In the remote variant the parse runs inside the
    [try ... except: pass] block: once its object has opened, such a key
    is skipped, and the run gives what it gives without that key. *)
Theorem filename_mismatch :
  forall (backend : S3Backend) (fs : filesystem)
         (keys1 : list string) (k : string) (keys2 : list string)
         (f : file) (e : exn),
    parse k = Raise e ->
    s3_object backend k = Ok f ->
    raises (local_series fs (keys1 ++ k :: keys2))
    /\ remote_series backend (keys1 ++ k :: keys2)
       = remote_series backend (keys1 ++ keys2).
Proof.
  intros backend fs keys1 k keys2 f e Hparse Hopen. split.
  - unfold get_composite_from_list. rewrite for_each_app.
    destruct (for_each (local_body fs) keys1 no_items) as [st|e1]; cbn [for_each bind].
    + rewrite (local_body_parse_raises fs st k e Hparse). cbn [for_each bind].
      exists e. reflexivity.
    + exists e1. reflexivity.
  - unfold get_composite_from_s3_list. rewrite !for_each_app.
    destruct (for_each (remote_body backend) keys1 no_items) as [st|e1]; cbn [for_each bind];
      [|reflexivity].
    rewrite remote_body_eq, Hopen. cbn [for_each bind].
    rewrite (try_unchanged st k f) by (right; exists e; exact Hparse).
    reflexivity.
Qed.

(** The loops over files that all process: one time, one profile and one
    range axis per file, in the order of the keys. *)
Lemma local_loop_valid (fs : filesystem) (items : list processed)
  (ts : list Timestamp) (rs : list (list float)) (gs : list (list Q)) :
  (forall it, In it items ->
     fs (p_key it) = Some (p_file it)
     /\ process (p_key it) (p_file it) = Ok (p_time it, p_profile it, p_range it)) ->
  for_each (local_body fs) (map p_key items) (ts, rs, gs)
  = Ok (ts ++ map p_time items, rs ++ map p_profile items, gs ++ map p_range items).
Proof.
  revert ts rs gs; induction items as [|it items IH]; intros ts rs gs Hall;
    cbn [for_each bind map].
  - rewrite !app_nil_r. reflexivity.
  - destruct (Hall it (or_introl eq_refl)) as [Hfs Hp].
    rewrite (local_body_Ok fs ts rs gs _ _ _ _ _ Hfs Hp). cbn [bind].
    rewrite IH by (intros it' Hit'; apply Hall; right; exact Hit').
    rewrite <- !app_assoc. reflexivity.
Qed.

Lemma remote_loop_valid (backend : S3Backend) (items : list processed)
  (ts : list Timestamp) (rs : list (list float)) (gs : list (list Q)) :
  (forall it, In it items ->
     s3_object backend (p_key it) = Ok (p_file it)
     /\ process (p_key it) (p_file it) = Ok (p_time it, p_profile it, p_range it)) ->
  for_each (remote_body backend) (map p_key items) (ts, rs, gs)
  = Ok (ts ++ map p_time items, rs ++ map p_profile items, gs ++ map p_range items).
Proof.
  revert ts rs gs; induction items as [|it items IH]; intros ts rs gs Hall;
    cbn [for_each bind map].
  - rewrite !app_nil_r. reflexivity.
  - destruct (Hall it (or_introl eq_refl)) as [Hopen Hp].
    rewrite remote_body_eq, Hopen. cbn [bind].
    rewrite (try_Ok ts rs gs _ _ _ _ _ Hp).
    rewrite IH by (intros it' Hit'; apply Hall; right; exact Hit').
    rewrite <- !app_assoc. reflexivity.
Qed.

(** The table of files that all process, with profiles as long as the
    first range axis. *)
Lemma make_dataset_valid (first : processed) (others : list processed) :
  (forall it, In it (first :: others) ->
     length (p_profile it) = length (p_range first)) ->
  make_dataset (map p_time (first :: others)) (map p_profile (first :: others))
    (map p_range (first :: others))
  = Ok {| ds_time := map p_time (first :: others);
          ds_range := p_range first;
          ds_ref := map p_profile (first :: others) |}.
Proof.
  intros Hlen. unfold make_dataset. cbn [map first_item bind np_vstack].
  assert (H1 : forallb (fun r' => length r' =? length (p_profile first))%nat
                 (map p_profile others) = true).
  { apply forallb_forall. intros r Hr. apply in_map_iff in Hr as (it & <- & Hit).
    apply Nat.eqb_eq. rewrite (Hlen it (or_intror Hit)).
    symmetry. apply Hlen. left. reflexivity. }
  rewrite H1. cbn [bind].
  assert (H2 : forallb (fun row => length row =? length (p_range first))%nat
                 (p_profile first :: map p_profile others) = true).
  { apply forallb_forall. intros r Hr.
    change (In r (map p_profile (first :: others))) in Hr.
    apply in_map_iff in Hr as (it & <- & Hit).
    apply Nat.eqb_eq. apply Hlen. exact Hit. }
  rewrite H2. cbn [length]. rewrite !length_map, Nat.eqb_refl. reflexivity.
Qed.

(** X13.  N keys that all decode, parse and extract, with profiles as
    long as the first range axis: the local variant returns the table of
    their N times and N profiles in key order, over the first file's range
    axis; the range axes of the later files play no part. *)
Lemma local_series_valid (fs : filesystem) (first : processed)
  (others : list processed) :
  (forall it, In it (first :: others) ->
     fs (p_key it) = Some (p_file it)
     /\ process (p_key it) (p_file it) = Ok (p_time it, p_profile it, p_range it)) ->
  (forall it, In it (first :: others) ->
     length (p_profile it) = length (p_range first)) ->
  local_series fs (map p_key (first :: others))
  = Ok {| ds_time := map p_time (first :: others);
          ds_range := p_range first;
          ds_ref := map p_profile (first :: others) |}.
Proof.
  intros Hall Hlen. unfold get_composite_from_list, no_items.
  rewrite (local_loop_valid fs (first :: others) [] [] [] Hall).
  cbn [bind app]. apply make_dataset_valid. exact Hlen.
Qed.

(** X14.  The same for the remote variant: N keys that all open,
    decode, parse and extract, with profiles as long as the first range
    axis, give the table of their N times and N profiles in key order. *)
Lemma remote_series_valid (backend : S3Backend) (first : processed)
  (others : list processed) :
  (forall it, In it (first :: others) ->
     s3_object backend (p_key it) = Ok (p_file it)
     /\ process (p_key it) (p_file it) = Ok (p_time it, p_profile it, p_range it)) ->
  (forall it, In it (first :: others) ->
     length (p_profile it) = length (p_range first)) ->
  remote_series backend (map p_key (first :: others))
  = Ok {| ds_time := map p_time (first :: others);
          ds_range := p_range first;
          ds_ref := map p_profile (first :: others) |}.
Proof.
  intros Hall Hlen. unfold get_composite_from_s3_list, no_items.
  rewrite (remote_loop_valid backend (first :: others) [] [] [] Hall).
  cbn [bind app]. apply make_dataset_valid. exact Hlen.
Qed.

(** Remote keys that open and then fail at the decoding or at the parse
    count for nothing: the run is the run over the other keys. *)
Lemma remote_loop_filter (backend : S3Backend) (keep : string -> bool)
  (keys : list string) (st : accumulators) :
  (forall k, In k keys -> keep k = false ->
     exists f, s3_object backend k = Ok f
               /\ (raises (pyart_io_read f) \/ raises (parse k))) ->
  for_each (remote_body backend) keys st
  = for_each (remote_body backend) (filter keep keys) st.
Proof.
  revert st; induction keys as [|k keys IH]; intros st Hall; [reflexivity|].
  assert (Hrest : forall k', In k' keys -> keep k' = false ->
            exists f, s3_object backend k' = Ok f
                      /\ (raises (pyart_io_read f) \/ raises (parse k')))
    by (intros k' Hk'; apply Hall; right; exact Hk').
  cbn [filter]. destruct (keep k) eqn:Hk; cbn [for_each].
  - destruct (remote_body backend st k) as [st'|e]; cbn [bind]; [|reflexivity].
    apply IH. exact Hrest.
  - destruct (Hall k (or_introl eq_refl) Hk) as (f & Hopen & Hfail).
    rewrite remote_body_eq, Hopen. cbn [bind].
    rewrite (try_unchanged st k f Hfail). apply IH. exact Hrest.
Qed.

(** X15.  The remote variant skips, without a trace, every key that
    opens and then fails at the decoding or at the parse of its name: the
    run over all the keys is the run over the keys that are left. *)
Lemma remote_series_filter (backend : S3Backend) (keep : string -> bool)
  (keys : list string) :
  (forall k, In k keys -> keep k = false ->
     exists f, s3_object backend k = Ok f
               /\ (raises (pyart_io_read f) \/ raises (parse k))) ->
  remote_series backend keys = remote_series backend (filter keep keys).
Proof.
  intros Hall. unfold get_composite_from_s3_list.
  rewrite (remote_loop_filter backend keep keys no_items Hall). reflexivity.
Qed.

(** *** Failures, and the shape of what is returned *)

Local Abbreviation local_outcome fs filen :=
  (local_file Radar display to_datetime pyart_io_read fs radar_id field azimuth filen).

Lemma local_body_outcome (fs : filesystem) (ts : list Timestamp)
  (rs : list (list float)) (gs : list (list Q)) (filen : string) :
  local_body fs (ts, rs, gs) filen
  = match local_outcome fs filen with
    | Ok (t, ray, rng) => Ok (ts ++ [t], rs ++ [ray], gs ++ [rng])
    | Raise e => Raise e
    end.
Proof.
  rewrite local_body_eq. unfold local_file.
  destruct (to_datetime _ _) as [t|e]; cbn [bind]; [|reflexivity].
  destruct (pyart_io_read_path _ _ _ _) as [r|e]; cbn [bind]; [|reflexivity].
  destruct (get_composite_field _ _ _ _ _) as [[ray rng]|e]; reflexivity.
Qed.

(** X6.  The local variant stops at the first file that fails, with that
    file's exception: after any number of files that process, a file
    whose name does not parse, that cannot be read or decoded, or whose
    profile cannot be extracted ends the run, whatever keys come after
    it. *)
Theorem local_series_first_failure :
  forall (fs : filesystem) (items : list processed) (k : string)
         (rest : list string) (e : exn),
    (forall it, In it items ->
       fs (p_key it) = Some (p_file it)
       /\ process (p_key it) (p_file it) = Ok (p_time it, p_profile it, p_range it)) ->
    local_outcome fs k = Raise e ->
    local_series fs (map p_key items ++ k :: rest) = Raise e.
Proof.
  intros fs items k rest e Hall Hk.
  unfold get_composite_from_list, no_items.
  rewrite for_each_app, (local_loop_valid fs items [] [] [] Hall).
  cbn [bind for_each app]. rewrite local_body_outcome, Hk. reflexivity.
Qed.

Lemma remote_loop_opens (backend : S3Backend) (keys : list string) (st : accumulators) :
  (forall k, In k keys -> returns (s3_object backend k)) ->
  returns (for_each (remote_body backend) keys st).
Proof.
  revert st; induction keys as [|k keys IH]; intros st Hall; cbn [for_each].
  - exists st. reflexivity.
  - destruct (Hall k (or_introl eq_refl)) as [f Hf].
    rewrite remote_body_eq, Hf. cbn [bind].
    apply IH. intros k' Hk'. apply Hall. right. exact Hk'.
Qed.

(** X7.  In the remote variant an object that cannot be opened is not
    covered by the [try]: after any number of keys that open, the first
    key whose opening raises ends the run with that exception. *)
Theorem remote_series_open_failure :
  forall (backend : S3Backend) (keys1 : list string) (k : string)
         (keys2 : list string) (e : exn),
    (forall k', In k' keys1 -> returns (s3_object backend k')) ->
    s3_object backend k = Raise e ->
    remote_series backend (keys1 ++ k :: keys2) = Raise e.
Proof.
  intros backend keys1 k keys2 e Hall Hk.
  unfold get_composite_from_s3_list. rewrite for_each_app.
  destruct (remote_loop_opens backend keys1 no_items Hall) as [st ->].
  cbn [bind for_each]. rewrite remote_body_eq, Hk. reflexivity.
Qed.

(** What a table that was built tells about the lists it was built
    from. *)
Lemma make_dataset_Ok (times : list Timestamp) (rays : list (list float))
  (rngs : list (list Q)) (ds : Dataset) :
  make_dataset times rays rngs = Ok ds ->
  ds_time ds = times /\ ds_ref ds = rays
  /\ first_item rngs = Ok (ds_range ds)
  /\ length rays = length times
  /\ rays <> []
  /\ Forall (fun row => length row = length (ds_range ds)) rays.
Proof.
  unfold make_dataset.
  destruct (first_item rngs) as [rng|e]; cbn [bind]; [|discriminate].
  unfold np_vstack. destruct rays as [|r rs]; cbn [bind]; [discriminate|].
  destruct (forallb _ rs); cbn [bind]; [|discriminate].
  destruct (Nat.eqb _ _) eqn:Hlen; cbn [andb]; [|discriminate].
  destruct (forallb _ (r :: rs)) eqn:Hrows; [|discriminate].
  intros H. injection H as <-. cbn [ds_time ds_ref ds_range].
  apply Nat.eqb_eq in Hlen.
  repeat split; try reflexivity; try assumption; try discriminate.
  apply Forall_forall. intros row Hrow.
  apply Nat.eqb_eq. exact (proj1 (forallb_forall _ _) Hrows row Hrow).
Qed.

Lemma local_loop_rows (fs : filesystem) (keys : list string)
  (ts ts' : list Timestamp) (rs rs' : list (list float)) (gs gs' : list (list Q)) :
  for_each (local_body fs) keys (ts, rs, gs) = Ok (ts', rs', gs') ->
  exists tn rn gn,
    ts' = ts ++ tn /\ rs' = rs ++ rn /\ gs' = gs ++ gn
    /\ Forall2 (fun k t => parse k = Ok t) keys tn
    /\ length rn = length keys /\ length gn = length keys.
Proof.
  revert ts rs gs; induction keys as [|k keys IH]; intros ts rs gs; cbn [for_each].
  - intros H. injection H as <- <- <-. exists [], [], [].
    rewrite !app_nil_r. repeat split; constructor.
  - rewrite local_body_eq.
    destruct (to_datetime _ _) as [t|e] eqn:Ht; cbn [bind]; [|discriminate].
    destruct (pyart_io_read_path _ _ _ _) as [r|e]; cbn [bind]; [|discriminate].
    destruct (get_composite_field _ _ _ _ _) as [[ray rng]|e]; cbn [bind];
      [|discriminate].
    intros H. destruct (IH _ _ _ H) as (tn & rn & gn & -> & -> & -> & Hf & Hr & Hg).
    exists (t :: tn), (ray :: rn), (rng :: gn).
    rewrite <- !app_assoc. cbn [app length].
    repeat split; try reflexivity; try (f_equal; assumption).
    constructor; assumption.
Qed.

(** X8.  Whenever the local variant returns a table, the table has one
    row per key, in key order: its times are the parses of the base names
    of the keys, one by one, its profiles are as many, and every profile
    is as long as the range axis. *)
Theorem local_series_rows :
  forall (fs : filesystem) (keys : list string) (ds : Dataset),
    local_series fs keys = Ok ds ->
    Forall2 (fun k t => parse k = Ok t) keys (ds_time ds)
    /\ length (ds_ref ds) = length keys
    /\ Forall (fun row => length row = length (ds_range ds)) (ds_ref ds).
Proof.
  intros fs keys ds. unfold get_composite_from_list, no_items.
  destruct (for_each _ keys _) as [[[ts' rs'] gs']|e] eqn:Hloop; cbn [bind];
    [|discriminate].
  intros Hds.
  apply local_loop_rows in Hloop
    as (tn & rn & gn & -> & -> & -> & Hf & Hr & Hg).
  apply make_dataset_Ok in Hds as (-> & -> & _ & _ & _ & Hrows).
  cbn [app]. auto.
Qed.

Lemma try_step (ts : list Timestamp) (rs : list (list float)) (gs : list (list Q))
  (filen : string) (f : file) :
  exists tn rn gn,
    try_read_and_append Radar display to_datetime pyart_io_read
      radar_id field azimuth (ts, rs, gs) (snd (os_path_split filen)) f
    = (ts ++ tn, rs ++ rn, gs ++ gn)
    /\ length rn = length gn
    /\ (length rn <= length tn)%nat /\ (length tn <= 1)%nat
    /\ Forall (fun t => parse filen = Ok t) tn.
Proof.
  unfold try_read_and_append. rewrite os_path_basename_tail.
  destruct (pyart_io_read f) as [r|e].
  2:{ exists [], [], []. rewrite !app_nil_r. cbn.
      repeat split; try reflexivity; try lia; repeat constructor; assumption. }
  destruct (to_datetime _ _) as [t|e] eqn:Ht.
  2:{ exists [], [], []. rewrite !app_nil_r. cbn.
      repeat split; try reflexivity; try lia; repeat constructor; assumption. }
  destruct (get_composite_field _ _ _ _ _) as [[ray rng]|e].
  - exists [t], [ray], [rng]. cbn.
    repeat split; try reflexivity; try lia; repeat constructor; assumption.
  - exists [t], [], []. rewrite !app_nil_r. cbn.
    repeat split; try reflexivity; try lia; repeat constructor; assumption.
Qed.

Lemma remote_loop_rows (backend : S3Backend) (keys : list string)
  (ts ts' : list Timestamp) (rs rs' : list (list float)) (gs gs' : list (list Q)) :
  for_each (remote_body backend) keys (ts, rs, gs) = Ok (ts', rs', gs') ->
  exists tn rn gn,
    ts' = ts ++ tn /\ rs' = rs ++ rn /\ gs' = gs ++ gn
    /\ length rn = length gn
    /\ (length rn <= length tn)%nat /\ (length tn <= length keys)%nat
    /\ Forall (fun t => exists k, In k keys /\ parse k = Ok t) tn.
Proof.
  revert ts rs gs; induction keys as [|k keys IH]; intros ts rs gs; cbn [for_each].
  - intros H. injection H as <- <- <-. exists [], [], [].
    rewrite !app_nil_r. cbn.
    repeat split; try reflexivity; try lia; constructor.
  - rewrite remote_body_eq.
    destruct (s3_object backend k) as [f|e]; cbn [bind]; [|discriminate].
    destruct (try_step ts rs gs k f) as (t1 & r1 & g1 & -> & Hrg & Hrt & Ht1 & Hp1).
    intros H. destruct (IH _ _ _ H)
      as (tn & rn & gn & -> & -> & -> & Hrg' & Hrt' & Htn & Hp).
    exists (t1 ++ tn), (r1 ++ rn), (g1 ++ gn).
    rewrite <- !app_assoc, !length_app. cbn [length].
    repeat split; try reflexivity; try lia.
    apply Forall_app. split.
    + eapply Forall_impl; [|exact Hp1]. intros t Ht. exists k. split; [left|]; auto.
    + eapply Forall_impl; [|exact Hp]. intros t (k' & Hk' & Ht).
      exists k'. split; [right|]; auto.
Qed.

(** X9.  Whenever the remote variant returns a table, the table has as
    many times as profiles, at least one and at most one per key; every
    time is the parse of the base name of one of the keys, and every
    profile is as long as the range axis. *)
Theorem remote_series_rows :
  forall (backend : S3Backend) (keys : list string) (ds : Dataset),
    remote_series backend keys = Ok ds ->
    length (ds_time ds) = length (ds_ref ds)
    /\ (1 <= length (ds_ref ds) <= length keys)%nat
    /\ Forall (fun t => exists k, In k keys /\ parse k = Ok t) (ds_time ds)
    /\ Forall (fun row => length row = length (ds_range ds)) (ds_ref ds).
Proof.
  intros backend keys ds. unfold get_composite_from_s3_list, no_items.
  destruct (for_each _ keys _) as [[[ts' rs'] gs']|e] eqn:Hloop; cbn [bind];
    [|discriminate].
  intros Hds.
  apply remote_loop_rows in Hloop
    as (tn & rn & gn & -> & -> & -> & Hrg & Hrt & Htn & Hp).
  apply make_dataset_Ok in Hds as (-> & -> & _ & Hlen & Hne & Hrows).
  cbn [app] in *. repeat split; auto; try lia.
  destruct rn; [congruence | cbn; lia].
Qed.

Lemma make_dataset_ragged (first : processed) (others : list processed) :
  (exists it, In it (first :: others)
              /\ length (p_profile it) <> length (p_range first)) ->
  make_dataset (map p_time (first :: others)) (map p_profile (first :: others))
    (map p_range (first :: others))
  = Raise ValueError.
Proof.
  intros (it & Hit & Hlen). unfold make_dataset. cbn [map first_item bind np_vstack].
  destruct (forallb _ (map p_profile others)); cbn [bind]; [|reflexivity].
  assert (H : forallb (fun row => length row =? length (p_range first))%nat
                (p_profile first :: map p_profile others) = false).
  { destruct (forallb _ (p_profile first :: _)) eqn:E; [|reflexivity].
    exfalso. apply Hlen. apply Nat.eqb_eq.
    apply (proj1 (forallb_forall _ _) E).
    change (In (p_profile it) (map p_profile (first :: others))).
    apply in_map. exact Hit. }
  rewrite H, andb_false_r. reflexivity.
Qed.

(** X10.  Range bins are never reconciled: when every file processes
    but some profile is not as long as the range axis of the first file,
    the local variant raises [ValueError] and returns no table. *)
Theorem local_series_ragged :
  forall (fs : filesystem) (first : processed) (others : list processed),
    (forall it, In it (first :: others) ->
       fs (p_key it) = Some (p_file it)
       /\ process (p_key it) (p_file it) = Ok (p_time it, p_profile it, p_range it)) ->
    (exists it, In it (first :: others)
                /\ length (p_profile it) <> length (p_range first)) ->
    local_series fs (map p_key (first :: others)) = Raise ValueError.
Proof.
  intros fs first others Hall Hbad. unfold get_composite_from_list, no_items.
  rewrite (local_loop_valid fs (first :: others) [] [] [] Hall).
  cbn [bind app]. apply make_dataset_ragged. exact Hbad.
Qed.

End TimeSeries.

Lemma no_profile_raises_witness :
  get_composite_from_s3_list volume display_of_volume pd_to_datetime sample_read
    (backend_of_objects store_no_reflectivity) [key_0010]
    "KATX" "reflectivity" (235 # 1) = Raise IndexError
  /\ get_composite_from_s3_list volume display_of_volume pd_to_datetime sample_read
       (backend_of_objects store_no_reflectivity) []
       "KATX" "reflectivity" (235 # 1) = Raise IndexError
  /\ get_composite_from_list volume display_of_volume pd_to_datetime sample_read
       (local_of_objects store_no_reflectivity) []
       "KATX" "reflectivity" (235 # 1) = Raise IndexError.
Proof.
  apply (no_profile_raises volume display_of_volume pd_to_datetime sample_read
           "KATX" "reflectivity" (235 # 1)
           (backend_of_objects store_no_reflectivity)
           (local_of_objects store_no_reflectivity) [key_0010]).
  intros k [<-|[]]. exists (plain "VOLUME-V"). split.
  - reflexivity.
  - exists KeyError. reflexivity.
Defined.

Lemma corrupted_second_file_witness :
  get_composite_from_s3_list volume display_of_volume pd_to_datetime sample_read
    (backend_of_objects store_corrupted) [key_0004; key_0010; key_0016]
    "KATX" "reflectivity" (235 # 1)
  = Ok {| ds_time := [stamp 2020 6 15 0 4 11; stamp 2020 6 15 0 15 53];
          ds_range := gate_ranges volume_a;
          ds_ref := [[cell 1000; cell 5; NaN]; [cell 10; cell 20; cell 30]] |}
  /\ exists e',
       get_composite_from_list volume display_of_volume pd_to_datetime sample_read
         (local_of_objects store_corrupted) [key_0004; key_0010; key_0016]
         "KATX" "reflectivity" (235 # 1) = Raise e'
       /\ (e' = LibraryError "not a radar volume"
           \/ pd_to_datetime (os_path_basename key_0010) (NEX_FMT_format "KATX")
              = Raise e').
Proof.
  apply (corrupted_second_file volume display_of_volume pd_to_datetime sample_read
           "KATX" "reflectivity" (235 # 1)
           (backend_of_objects store_corrupted) (local_of_objects store_corrupted)
           key_0004 key_0010 key_0016
           (plain "VOLUME-A") (plain "garbage") (plain "VOLUME-B")
           (LibraryError "not a radar volume")
           (stamp 2020 6 15 0 4 11) (stamp 2020 6 15 0 15 53)
           [cell 1000; cell 5; NaN] [cell 10; cell 20; cell 30]
           (gate_ranges volume_a) (gate_ranges volume_b));
    reflexivity.
Defined.

Lemma filename_mismatch_witness :
  raises (get_composite_from_list volume display_of_volume pd_to_datetime sample_read
            (local_of_objects store_with_metadata) ([key_0004] ++ key_mdm :: [])
            "KATX" "reflectivity" (235 # 1))
  /\ get_composite_from_s3_list volume display_of_volume pd_to_datetime sample_read
       (backend_of_objects store_with_metadata) ([key_0004] ++ key_mdm :: [])
       "KATX" "reflectivity" (235 # 1)
     = get_composite_from_s3_list volume display_of_volume pd_to_datetime sample_read
         (backend_of_objects store_with_metadata) ([key_0004] ++ [])
         "KATX" "reflectivity" (235 # 1).
Proof.
  apply (filename_mismatch volume display_of_volume pd_to_datetime sample_read
           "KATX" "reflectivity" (235 # 1)
           (backend_of_objects store_with_metadata)
           (local_of_objects store_with_metadata)
           [key_0004] key_mdm [] (plain "VOLUME-B") ValueError);
    reflexivity.
Defined.

(** C7 (as stated) fails in the remote variant: the base name of the
    metadata object does not parse, and the run over a volume and its
    metadata object still returns a table, of the one volume. *)
Lemma remote_skips_unparsable_name :
  pd_to_datetime (os_path_basename key_mdm) (NEX_FMT_format "KATX") = Raise ValueError
  /\ get_composite_from_s3_list volume display_of_volume pd_to_datetime sample_read
       (backend_of_objects store_with_metadata) [key_0004; key_mdm]
       "KATX" "reflectivity" (235 # 1)
     = Ok {| ds_time := [stamp 2020 6 15 0 4 11];
             ds_range := gate_ranges volume_a;
             ds_ref := [[cell 1000; cell 5; NaN]] |}.
Proof. split; reflexivity. Qed.

(** C3 (the code at the failing input).  Two remote keys; the second
    object decodes and its name parses, but it carries no reflectivity and
    the extraction raises.  Its time has been appended by then: the loop
    ends with two times for one profile, and the table is refused with
    [ValueError] where one row for the one good file was due. *)
Theorem remote_extract_failure :
  sample_read (plain "VOLUME-V") = Ok volume_v
  /\ pd_to_datetime (os_path_basename key_0010) (NEX_FMT_format "KATX")
     = Ok (stamp 2020 6 15 0 10 2)
  /\ get_composite_field volume display_of_volume volume_v "reflectivity" (235 # 1)
     = Raise KeyError
  /\ for_each
       (get_composite_from_s3_list_body volume display_of_volume pd_to_datetime
          sample_read (S3FileSystem_anon (backend_of_objects store_no_reflectivity))
          "KATX" "reflectivity" (235 # 1))
       [key_0004; key_0010] no_items
     = Ok ([stamp 2020 6 15 0 4 11; stamp 2020 6 15 0 10 2],
           [[cell 1000; cell 5; NaN]],
           [gate_ranges volume_a])
  /\ get_composite_from_s3_list volume display_of_volume pd_to_datetime sample_read
       (backend_of_objects store_no_reflectivity) [key_0004; key_0010]
       "KATX" "reflectivity" (235 # 1)
     = Raise ValueError.
Proof. repeat split; reflexivity. Qed.

(** ** Keys listed by prefix *)







(** ** Parsing the base name of a listed key *)











(** ** Opening a compressed local file *)

Lemma strip_gz_Some (name base : string) :
  strip_gz name = Some base -> name = (base ++ ".gz")%string /\ base <> EmptyString.
Proof.
  revert base; induction name as [|c name IH]; intros base; simpl; [discriminate|].
  destruct (String.eqb name ".gz") eqn:E.
  - apply String.eqb_eq in E. subst name.
    intros H. injection H as <-. split; [reflexivity | discriminate].
  - destruct (strip_gz name) as [b|]; simpl; [|discriminate].
    intros H. injection H as <-.
    destruct (IH b eq_refl) as [-> _]. split; [reflexivity | discriminate].
Qed.

Lemma append_gz_neq (base : string) : (base ++ ".gz")%string <> base.
Proof.
  induction base as [|c base IH]; simpl; [discriminate|].
  intros H. injection H as H. exact (IH H).
Qed.



Lemma fs_set_eq (fs : filesystem) (path : string) (v : option file) :
  fs_set fs path v path = v.
Proof. unfold fs_set. rewrite String.eqb_refl. reflexivity. Qed.

Lemma fs_set_neq (fs : filesystem) (path p : string) (v : option file) :
  p <> path -> fs_set fs path v p = fs p.
Proof.
  intros H. unfold fs_set. destruct (String.eqb_spec p path); [contradiction | reflexivity].
Qed.

(** Decompression puts the plain file under the stripped name and takes
    the compressed one away. *)
Lemma try_file_gunzip_compressed (fs : filesystem) (filename base : string) (f : file) :
  compressed_at fs filename base f ->
  exists fs1,
    try_file_gunzip fs filename = ((base, true), fs1)
    /\ fs1 base = Some (decompressed f)
    /\ fs1 filename = None
    /\ forall p, p <> base -> p <> filename -> fs1 p = fs p.
Proof.
  intros (Hstrip & Hf & Hgz & Hfree).
  destruct (strip_gz_Some _ _ Hstrip) as [Hname _].
  assert (Hneq : filename <> base) by (rewrite Hname; apply append_gz_neq).
  unfold try_file_gunzip, gunzip_file. rewrite Hstrip, Hf, Hgz, Hfree. simpl.
  eexists. split; [reflexivity|]. split; [|split].
  - apply fs_set_eq.
  - rewrite fs_set_neq by exact Hneq. apply fs_set_eq.
  - intros p Hp1 Hp2. rewrite !fs_set_neq by assumption. reflexivity.
Qed.

(** X16.  The failure path of [open_nexrad_file]: when the read of a
    decompressed file raises, the exception is passed on and [gzip] is
    never run; the compressed file is gone and the decompressed one is
    left in its place. *)
Lemma open_nexrad_file_read_raises :
  forall (Radar : Type) (read_radx read_nexrad_archive : file -> result Radar)
         (fs : filesystem) (filename base io : string) (f : file) (e : exn),
    compressed_at fs filename base f ->
    (if String.eqb (str_lower io) "radx" then read_radx else read_nexrad_archive)
      (decompressed f) = Raise e ->
    exists fs',
      open_nexrad_file Radar read_radx read_nexrad_archive fs filename io
      = (Raise e, fs')
      /\ fs' filename = None
      /\ fs' base = Some (decompressed f).
Proof.
  intros Radar read_radx read_nexrad_archive fs filename base io f e Hc Hread.
  destruct (try_file_gunzip_compressed fs filename base f Hc)
    as (fs1 & Hgun & Hbase & Hname & _).
  unfold open_nexrad_file. rewrite Hgun.
  unfold read_path. rewrite Hbase, Hread.
  exists fs1. auto.
Qed.




(** * Further properties *)

(** ** The values of a profile *)

Lemma mask_saturated_in_band (w : float) : missing_or_in_band (mask_saturated w).
Proof.
  destruct w as [| |q|]; try (left; reflexivity).
  destruct (mask_saturated_Fin q) as [[Hb ->]|[_ ->]].
  - right. exists q. auto.
  - left. reflexivity.
Qed.

Lemma fmax_in_band (a b : float) :
  missing_or_in_band a -> missing_or_in_band b -> missing_or_in_band (fmax a b).
Proof.
  intros [->|(p & -> & Hp)] [->|(q & -> & Hq)]; simpl.
  - left. reflexivity.
  - right. exists q. auto.
  - right. exists p. auto.
  - destruct (Qltb p q); right; [exists q | exists p]; auto.
Qed.

Lemma map2_fmax_in_band (l1 l2 : list float) :
  Forall missing_or_in_band l1 -> Forall missing_or_in_band l2 ->
  Forall missing_or_in_band (map2 fmax l1 l2).
Proof.
  intros H1; revert l2; induction H1 as [|a l1 Ha H1 IH]; intros l2 H2; simpl.
  - constructor.
  - destruct H2 as [|b l2 Hb H2]; constructor.
    + apply fmax_in_band; assumption.
    + apply IH. exact H2.
Qed.

(** X1.  Whatever the display hands out, a profile [get_composite_field]
    returns holds only NaN and finite values between -1000 and 1000: no
    infinity and no value beyond the two thresholds gets through.  The
    range axis returned is the display's. *)
Theorem get_composite_field_in_band :
  forall (Radar : Type) (display : Radar -> RadarDisplay) (radar : Radar)
         (field : string) (azimuth : Q) (prof : list float) (rng : list Q),
    get_composite_field Radar display radar field azimuth = Ok (prof, rng) ->
    Forall missing_or_in_band prof /\ rng = ranges (display radar).
Proof.
  intros Radar display radar field azimuth prof rng.
  unfold get_composite_field.
  destruct (_get_azimuth_rhi_data_x_y_z _ _ _ _ _ _ _) as [[[[ray x] y] z]|e];
    simpl; [|discriminate].
  destruct ray as [|row rows]; simpl; [discriminate|].
  intros H. injection H as <- <-. split; [|reflexivity].
  assert (Hrow : Forall missing_or_in_band (map mask_saturated row)).
  { apply Forall_map. apply Forall_forall. intros w _. apply mask_saturated_in_band. }
  revert Hrow. generalize (map mask_saturated row).
  induction rows as [|r rows IH]; intros acc Hacc; simpl; [exact Hacc|].
  apply IH. apply map2_fmax_in_band; [exact Hacc|].
  apply Forall_map. apply Forall_forall. intros w _. apply mask_saturated_in_band.
Qed.

Lemma get_composite_field_in_band_witness :
  Forall missing_or_in_band [cell 1000; cell 5; NaN]
  /\ gate_ranges volume_a = ranges (display_of_volume volume_a).
Proof.
  apply (get_composite_field_in_band volume display_of_volume volume_a
           "reflectivity" (235 # 1)).
  reflexivity.
Defined.

(** ** The hourly listing *)




Lemma get_s3_list_At (backend : S3Backend) (s e : datetime) (radar_id bucket : string) :
  let patterns :=
    map (fun t => (strftime t (S3_FMT_format radar_id radar_id) ++ "*")%string)
        (hourly_instants (to_seconds s) (to_seconds e)) in
  get_s3_list backend (At s) (At e) radar_id bucket
  = Ok (concat (map (s3_listing backend) patterns),
        {| s3_backend := backend; s3_queries := patterns |}).
Proof.
  unfold get_s3_list, pd_date_range, S3FileSystem_anon. cbn [bind].
  fold (hourly_instants (to_seconds s) (to_seconds e)).
  rewrite get_s3_list_loop. reflexivity.
Qed.

(** X3.  [get_s3_list] does not read its [bucket] argument: with any two
    buckets it returns the same, and every pattern it sends lies in the
    bucket of the template, [noaa-nexrad-level2], whatever the station. *)
Theorem get_s3_list_bucket_unused :
  forall (backend : S3Backend) (start end_ : Timestamp)
         (radar_id bucket bucket' : string),
    get_s3_list backend start end_ radar_id bucket
    = get_s3_list backend start end_ radar_id bucket'
    /\ match get_s3_list backend start end_ radar_id bucket with
       | Ok (_, s3conn) =>
           Forall (fun pattern => exists rest,
                     pattern = ("noaa-nexrad-level2/" ++ rest)%string)
                  (s3_queries s3conn)
       | Raise _ => True
       end.
Proof.
  intros backend start end_ radar_id bucket bucket'. split; [reflexivity|].
  destruct start as [|s], end_ as [|e]; try exact I.
  rewrite get_s3_list_At. cbn [s3_queries].
  apply Forall_map. apply Forall_forall. intros t _.
  unfold strftime, S3_FMT_format.
  cbn [append strftime_fields Ascii.eqb Bool.eqb].
  eexists. reflexivity.
Qed.




(** ** The time series: examples *)

Lemma local_series_first_failure_witness :
  get_composite_from_list volume display_of_volume pd_to_datetime sample_read
    (local_of_objects store_corrupted) (map p_key [item_0004] ++ key_0010 :: [key_0016])
    "KATX" "reflectivity" (235 # 1)
  = Raise (LibraryError "not a radar volume").
Proof.
  apply (local_series_first_failure volume display_of_volume pd_to_datetime
           sample_read "KATX" "reflectivity" (235 # 1)
           (local_of_objects store_corrupted) [item_0004] key_0010 [key_0016]
           (LibraryError "not a radar volume")).
  - intros it [<-|[]]. split; reflexivity.
  - reflexivity.
Defined.

Lemma remote_series_open_failure_witness :
  get_composite_from_s3_list volume display_of_volume pd_to_datetime sample_read
    (backend_of_objects store_corrupted) ([key_0004] ++ key_absent :: [key_0016])
    "KATX" "reflectivity" (235 # 1)
  = Raise OSError.
Proof.
  apply (remote_series_open_failure volume display_of_volume pd_to_datetime
           sample_read "KATX" "reflectivity" (235 # 1)
           (backend_of_objects store_corrupted) [key_0004] key_absent [key_0016]
           OSError).
  - intros k [<-|[]]. exists (plain "VOLUME-A"). reflexivity.
  - reflexivity.
Defined.

Lemma local_series_rows_witness :
  Forall2 (fun k t => pd_to_datetime (os_path_basename k) (NEX_FMT_format "KATX") = Ok t)
    [key_0004; key_0016] (ds_time table_0004_0016)
  /\ length (ds_ref table_0004_0016) = length [key_0004; key_0016]
  /\ Forall (fun row => length row = length (ds_range table_0004_0016))
       (ds_ref table_0004_0016).
Proof.
  apply (local_series_rows volume display_of_volume pd_to_datetime sample_read
           "KATX" "reflectivity" (235 # 1)
           (local_of_objects store_corrupted) [key_0004; key_0016] table_0004_0016).
  reflexivity.
Defined.

Lemma remote_series_rows_witness :
  length (ds_time table_0004_0016) = length (ds_ref table_0004_0016)
  /\ (1 <= length (ds_ref table_0004_0016)
      <= length [key_0004; key_0010; key_0016])%nat
  /\ Forall (fun t => exists k,
               In k [key_0004; key_0010; key_0016]
               /\ pd_to_datetime (os_path_basename k) (NEX_FMT_format "KATX") = Ok t)
       (ds_time table_0004_0016)
  /\ Forall (fun row => length row = length (ds_range table_0004_0016))
       (ds_ref table_0004_0016).
Proof.
  apply (remote_series_rows volume display_of_volume pd_to_datetime sample_read
           "KATX" "reflectivity" (235 # 1)
           (backend_of_objects store_corrupted) [key_0004; key_0010; key_0016]
           table_0004_0016).
  reflexivity.
Defined.

Lemma local_series_ragged_witness :
  get_composite_from_list volume display_of_volume pd_to_datetime sample_read_more
    (local_of_objects store_short) (map p_key (item_0004 :: [item_short]))
    "KATX" "reflectivity" (235 # 1)
  = Raise ValueError.
Proof.
  apply (local_series_ragged volume display_of_volume pd_to_datetime sample_read_more
           "KATX" "reflectivity" (235 # 1)
           (local_of_objects store_short) item_0004 [item_short]).
  - intros it [<-|[<-|[]]]; split; reflexivity.
  - exists item_short. split; [right; left; reflexivity | discriminate].
Defined.

Lemma local_series_valid_witness :
  get_composite_from_list volume display_of_volume pd_to_datetime sample_read
    (local_of_objects store_corrupted) (map p_key (item_0004 :: [item_0016]))
    "KATX" "reflectivity" (235 # 1)
  = Ok {| ds_time := map p_time (item_0004 :: [item_0016]);
          ds_range := p_range item_0004;
          ds_ref := map p_profile (item_0004 :: [item_0016]) |}.
Proof.
  apply (local_series_valid volume display_of_volume pd_to_datetime sample_read
           "KATX" "reflectivity" (235 # 1)
           (local_of_objects store_corrupted) item_0004 [item_0016]).
  - intros it [<-|[<-|[]]]; split; reflexivity.
  - intros it [<-|[<-|[]]]; reflexivity.
Defined.

Lemma remote_series_valid_witness :
  get_composite_from_s3_list volume display_of_volume pd_to_datetime sample_read
    (backend_of_objects store_corrupted) (map p_key (item_0004 :: [item_0016]))
    "KATX" "reflectivity" (235 # 1)
  = Ok {| ds_time := map p_time (item_0004 :: [item_0016]);
          ds_range := p_range item_0004;
          ds_ref := map p_profile (item_0004 :: [item_0016]) |}.
Proof.
  apply (remote_series_valid volume display_of_volume pd_to_datetime sample_read
           "KATX" "reflectivity" (235 # 1)
           (backend_of_objects store_corrupted) item_0004 [item_0016]).
  - intros it [<-|[<-|[]]]; split; reflexivity.
  - intros it [<-|[<-|[]]]; reflexivity.
Defined.

Lemma remote_series_filter_witness :
  get_composite_from_s3_list volume display_of_volume pd_to_datetime sample_read
    (backend_of_objects store_corrupted) [key_0004; key_0010; key_0016]
    "KATX" "reflectivity" (235 # 1)
  = get_composite_from_s3_list volume display_of_volume pd_to_datetime sample_read
      (backend_of_objects store_corrupted)
      (filter (fun k => negb (String.eqb k key_0010)) [key_0004; key_0010; key_0016])
      "KATX" "reflectivity" (235 # 1).
Proof.
  apply (remote_series_filter volume display_of_volume pd_to_datetime sample_read
           "KATX" "reflectivity" (235 # 1)
           (backend_of_objects store_corrupted)
           (fun k => negb (String.eqb k key_0010))
           [key_0004; key_0010; key_0016]).
  intros k [<-|[<-|[<-|[]]]] Hk; try discriminate Hk.
  exists (plain "garbage"). split; [reflexivity|].
  left. exists (LibraryError "not a radar volume"). reflexivity.
Defined.

Lemma open_nexrad_file_read_raises_witness :
  exists fs',
    open_nexrad_file volume sample_read sample_read dir_garbage "scan.gz" "radx"
    = (Raise (LibraryError "not a radar volume"), fs')
    /\ fs' "scan.gz" = None
    /\ fs' "scan" = Some (decompressed {| gzipped := true; payload := "garbage" |}).
Proof.
  apply (open_nexrad_file_read_raises volume sample_read sample_read
           dir_garbage "scan.gz" "scan" "radx"
           {| gzipped := true; payload := "garbage" |}
           (LibraryError "not a radar volume")).
  - repeat split; reflexivity.
  - reflexivity.
Defined.

(** ** The partition listing on a store *)








(** ** From a listed key back to its day *)















Local Opaque Z.mul Z.add.



Local Transparent Z.mul Z.add.






